(** * gdatasea: the relational schema of [gdatasea/models.py]

    The repository declares eight SQLModel tables together with their
    CHECK, UNIQUE, NOT NULL and FOREIGN KEY constraints, and one computed
    property ([Analysis.analysis_id]).  This development embeds the tables
    as records, the declared constraints as boolean functions on rows, the
    engine's INSERT and the session's DELETE as state-and-error
    computations over a store of tables, and the property as a function
    returning a string or raising.  The engine is the one [database.py]
    creates: SQLite, on which the declared foreign keys are not enforced.

    Conventions.
    - A nullable column is an [option]; [None] is SQL NULL (Python [None]).
      A column that is NOT NULL has the plain type.
    - Integers are [Z]. Python floats of the placement columns are compared
      by the engine only for equality; they are represented by the rational
      they denote ([Q], compared with [Qeq_bool]); NaN and the infinities
      are outside the model.
    - Timestamps are seconds as [Z], supplied by the caller's clock. *)

From Stdlib Require Import ZArith QArith Bool.
From stdpp Require Import base option list gmap strings pretty.

#[local] Set Warnings "-register-all".
#[local] Close Scope Q_scope.
#[local] Open Scope Z_scope.

(** ** JSON columns *)

(** Values of a [JSON_VARIANT] column: what [json] can encode of a Python
    object.  Keys of a mapping are strings and their order is not
    significant. *)
Inductive Json :=
  | JNull
  | JBool (b : bool)
  | JInt (z : Z)
  | JFloat (q : Q)
  | JStr (s : string)
  | JList (l : list Json)
  | JDict (m : gmap string Json).

(** The Python literal [{}], the [default] of every [attributes] field. *)
Definition empty_dict : Json := JDict ∅.

(** The annotations of the [attributes] fields: the alias
    [CellAttributes = Union[list[int | float | str | bool | bool], str, int,
    float, bool, None]] and the built-in [dict]. *)
Inductive Annotation := CellAttributes | dict.



(** ** SQL conditions over nullable columns *)

Module Sql.

Definition is_null {A} (v : option A) : bool :=
  match v with None => true | Some _ => false end.

Definition is_not_null {A} (v : option A) : bool := negb (is_null v).

(** [a = b]: NULL as soon as one operand is NULL. *)
Definition eq {A} (eqb : A → A → bool) (a b : option A) : option bool :=
  match a, b with
  | Some u, Some v => Some (eqb u v)
  | _, _ => None
  end.

(** [a <> b]. *)
Definition ne {A} (eqb : A → A → bool) (a b : option A) : option bool :=
  negb <$> eq eqb a b.

(** A CHECK constraint rejects a row only when its condition is FALSE;
    NULL passes. *)
Definition check (cond : option bool) : bool := default true cond.

(** Two index entries are duplicates only when every column compares
    TRUE; a NULL column makes the entries distinct. *)
Definition duplicate (cols : list (option bool)) : bool :=
  forallb (default false) cols.

(** [CASE WHEN c THEN 1 ELSE 0 END]. *)
Definition case_when (c : bool) : Z := if c then 1 else 0.

End Sql.

(** ** Column declarations

    How [sqlmodel] derives the nullability of a column from a field: an
    explicit [nullable=] argument wins; otherwise the column is nullable
    exactly when it is not a primary key and its annotation is
    [Optional[...]]. *)

Record FieldInfo := {
  annotation_optional : bool;
  primary_key : bool;
  nullable : option bool
}.

Definition column_nullable (f : FieldInfo) : bool :=
  match nullable f with
  | Some b => b
  | None => negb (primary_key f) && annotation_optional f
  end.

(** ** Tables *)

Module Project.
Record t := {
  project_id : string;
  suffix : string;
  description : option string;
  timestamp : Z
}.

(** [project_id: str = Field(index=True, unique=True)]. *)
Definition uniques : list (string * (t → t → bool)) :=
  [("ix_project_project_id",
    λ a b, bool_decide (project_id a = project_id b))].
End Project.

Module Cell.
Record t := {
  cell_id : string;
  attributes : Json;
  project_pkey : Z;
  timestamp : Z
}.

Definition uniques : list (string * (t → t → bool)) :=
  [("unique_id_and_project_on_cell",
    λ a b, (project_pkey a =? project_pkey b)
           && bool_decide (cell_id a = cell_id b))].

(** [attributes: CellAttributes = Field(sa_column=Column(JSON_VARIANT),
    default={})]. *)
Definition attributes_annotation : Annotation := CellAttributes.

(** The row [Cell(..., attributes=v)] for [Some v] and [Cell(...)], with
    the keyword left out, for [None]; the other fields are those of [r].  A
    table model is not validated when it is built: a value that is given is
    taken as it is, whatever the annotation. *)
Definition with_attributes (given : option Json) (r : t) : t :=
  {| cell_id := cell_id r; attributes := default empty_dict given;
     project_pkey := project_pkey r; timestamp := timestamp r |}.
End Cell.

Module Device.
Record t := {
  cell_pkey : Z;
  device_id : string;
  attributes : Json;
  x : option Q;
  y : option Q;
  angle : option Q;
  mirror : option bool;
  parent_cell_pkey : option Z;
  timestamp : Z
}.

(** ["parent_cell_pkey <> cell_pkey"]. *)
Definition unique_device_cell_references (d : t) : bool :=
  Sql.check (Sql.ne Z.eqb (parent_cell_pkey d) (Some (cell_pkey d))).

(** ["(parent_cell_pkey IS NULL and x IS NULL and y IS NULL and angle is
    NULL and mirror is NULL) OR (parent_cell_pkey IS NOT NULL and x IS NOT
    NULL and y IS NOT NULL and angle IS NOT NULL and mirror IS NOT
    NULL)"]. *)
Definition parent_cell_coordinate_reference_not_null (d : t) : bool :=
  (Sql.is_null (parent_cell_pkey d) && Sql.is_null (x d)
     && Sql.is_null (y d) && Sql.is_null (angle d)
     && Sql.is_null (mirror d))
  || (Sql.is_not_null (parent_cell_pkey d) && Sql.is_not_null (x d)
        && Sql.is_not_null (y d) && Sql.is_not_null (angle d)
        && Sql.is_not_null (mirror d)).

Definition checks : list (string * (t → bool)) :=
  [("unique_device_cell_references", unique_device_cell_references);
   ("parent_cell_coordinate_reference_not_null",
    parent_cell_coordinate_reference_not_null)].

(** [UniqueConstraint("x", "y", "angle", "mirror", "parent_cell_pkey",
    "cell_pkey")]. *)
Definition unique_coord_cells_on_device (a b : t) : bool :=
  Sql.duplicate
    [Sql.eq Qeq_bool (x a) (x b);
     Sql.eq Qeq_bool (y a) (y b);
     Sql.eq Qeq_bool (angle a) (angle b);
     Sql.eq Bool.eqb (mirror a) (mirror b);
     Sql.eq Z.eqb (parent_cell_pkey a) (parent_cell_pkey b);
     Some (cell_pkey a =? cell_pkey b)].

(** [UniqueConstraint("cell_pkey", "device_id")]. *)
Definition unique_device_ids_per_cell (a b : t) : bool :=
  (cell_pkey a =? cell_pkey b) && bool_decide (device_id a = device_id b).

Definition uniques : list (string * (t → t → bool)) :=
  [("unique_coord_cells_on_device", unique_coord_cells_on_device);
   ("unique_device_ids_per_cell", unique_device_ids_per_cell)].

(** [attributes: dict = Field(sa_column=Column(JSON_VARIANT),
    default={})]. *)
Definition attributes_annotation : Annotation := dict.

Definition with_attributes (given : option Json) (r : t) : t :=
  {| cell_pkey := cell_pkey r; device_id := device_id r;
     attributes := default empty_dict given;
     x := x r; y := y r; angle := angle r; mirror := mirror r;
     parent_cell_pkey := parent_cell_pkey r; timestamp := timestamp r |}.
End Device.

Module Wafer.
Record t := {
  wafer_id : string;
  description : option string;
  lot_id : option string;
  attributes : Json;
  timestamp : Z;
  project_pkey : Z
}.

Definition uniques : list (string * (t → t → bool)) :=
  [("unique_wafer_id_per_project",
    λ a b, (project_pkey a =? project_pkey b)
           && bool_decide (wafer_id a = wafer_id b))].

Definition attributes_annotation : Annotation := dict.

Definition with_attributes (given : option Json) (r : t) : t :=
  {| wafer_id := wafer_id r; description := description r;
     lot_id := lot_id r; attributes := default empty_dict given;
     timestamp := timestamp r; project_pkey := project_pkey r |}.
End Wafer.

Module Die.
Record t := {
  x : Z;
  y : Z;
  die_id : option string;
  attributes : Json;
  wafer_pkey : Z;
  timestamp : Z
}.

Definition uniques : list (string * (t → t → bool)) :=
  [("unique_wafer_die",
    λ a b, (x a =? x b) && (y a =? y b) && (wafer_pkey a =? wafer_pkey b))].

Definition attributes_annotation : Annotation := dict.

Definition with_attributes (given : option Json) (r : t) : t :=
  {| x := x r; y := y r; die_id := die_id r;
     attributes := default empty_dict given;
     wafer_pkey := wafer_pkey r; timestamp := timestamp r |}.
End Die.

Inductive DeviceDataType := simulation | measurement.

Module DeviceData.
Record t := {
  data_type : DeviceDataType;
  path : string;
  thumbnail_path : option string;
  attributes : Json;
  plotting_kwargs : Json;
  valid : bool;
  device_pkey : option Z;
  die_pkey : option Z;
  timestamp : Z;
  timestamp_acquired : option Z
}.

(** [device_pkey: int = Field(foreign_key="device.pkey", nullable=True)]. *)
Definition device_pkey_field : FieldInfo :=
  {| annotation_optional := false; primary_key := false;
     nullable := Some true |}.

(** [die_pkey: Optional[int] = Field(foreign_key="die.pkey",
    nullable=True)]. *)
Definition die_pkey_field : FieldInfo :=
  {| annotation_optional := true; primary_key := false;
     nullable := Some true |}.

Definition attributes_annotation : Annotation := dict.

Definition with_attributes (given : option Json) (r : t) : t :=
  {| data_type := data_type r; path := path r;
     thumbnail_path := thumbnail_path r;
     attributes := default empty_dict given;
     plotting_kwargs := plotting_kwargs r; valid := valid r;
     device_pkey := device_pkey r; die_pkey := die_pkey r;
     timestamp := timestamp r;
     timestamp_acquired := timestamp_acquired r |}.
End DeviceData.

Inductive AnalysisFunctionTargetModel :=
  | target_device_data
  | target_die
  | target_wafer.

Module AnalysisFunction.
Record t := {
  timestamp : Z;
  analysis_function_id : string;
  version : Z;
  hash : string;
  function_path : string;
  target_model : AnalysisFunctionTargetModel;
  test_target_model_pkey : Z
}.

(** [UniqueConstraint("analysis_function_id", "version")]. *)
Definition unique_analysis_function_id_version (a b : t) : bool :=
  bool_decide (analysis_function_id a = analysis_function_id b)
  && (version a =? version b).

Definition uniques : list (string * (t → t → bool)) :=
  [("unique_analysis_function_id_version",
    unique_analysis_function_id_version)].
End AnalysisFunction.

Module Analysis.
Record t := {
  timestamp : Z;
  parameters : Json;
  output : Json;
  summary_plot : string;
  attributes : Json;
  is_latest : bool;
  input_hash : string;
  device_data_pkey : option Z;
  die_pkey : option Z;
  wafer_pkey : option Z;
  analysis_function_pkey : Z
}.

(** ["1 = (CASE WHEN device_data_pkey IS NOT NULL THEN 1 ELSE 0 END
    + CASE WHEN die_pkey IS NOT NULL THEN 1 ELSE 0 END
    + CASE WHEN wafer_pkey IS NOT NULL THEN 1 ELSE 0 END)"]. *)
Definition analysis_pkeys_xor_constraint (a : t) : bool :=
  1 =? (Sql.case_when (Sql.is_not_null (device_data_pkey a))
        + Sql.case_when (Sql.is_not_null (die_pkey a))
        + Sql.case_when (Sql.is_not_null (wafer_pkey a))).

Definition checks : list (string * (t → bool)) :=
  [("analysis_pkeys_xor_constraint", analysis_pkeys_xor_constraint)].

(** [is_latest: bool = Field(default=True, index=True)]. *)
Definition is_latest_default : bool := true.

Definition set_is_latest (b : bool) (a : t) : t :=
  {| timestamp := timestamp a; parameters := parameters a;
     output := output a; summary_plot := summary_plot a;
     attributes := attributes a; is_latest := b;
     input_hash := input_hash a;
     device_data_pkey := device_data_pkey a; die_pkey := die_pkey a;
     wafer_pkey := wafer_pkey a;
     analysis_function_pkey := analysis_function_pkey a |}.

Definition attributes_annotation : Annotation := dict.

Definition with_attributes (given : option Json) (r : t) : t :=
  {| timestamp := timestamp r; parameters := parameters r;
     output := output r; summary_plot := summary_plot r;
     attributes := default empty_dict given; is_latest := is_latest r;
     input_hash := input_hash r;
     device_data_pkey := device_data_pkey r; die_pkey := die_pkey r;
     wafer_pkey := wafer_pkey r;
     analysis_function_pkey := analysis_function_pkey r |}.
End Analysis.

(** ** The store *)

(** One table per model, keyed by [pkey]; the field names are the SQL
    table names. *)
Record Store := {
  project : gmap Z Project.t;
  cell : gmap Z Cell.t;
  device : gmap Z Device.t;
  wafer : gmap Z Wafer.t;
  die : gmap Z Die.t;
  device_data : gmap Z DeviceData.t;
  analysis_function : gmap Z AnalysisFunction.t;
  analysis : gmap Z Analysis.t
}.

Definition empty_store : Store :=
  {| project := ∅; cell := ∅; device := ∅; wafer := ∅; die := ∅;
     device_data := ∅; analysis_function := ∅; analysis := ∅ |}.

Definition set_project (t : gmap Z Project.t) (s : Store) : Store :=
  {| project := t; cell := cell s; device := device s; wafer := wafer s;
     die := die s; device_data := device_data s;
     analysis_function := analysis_function s; analysis := analysis s |}.

Definition set_cell (t : gmap Z Cell.t) (s : Store) : Store :=
  {| project := project s; cell := t; device := device s; wafer := wafer s;
     die := die s; device_data := device_data s;
     analysis_function := analysis_function s; analysis := analysis s |}.

Definition set_device (t : gmap Z Device.t) (s : Store) : Store :=
  {| project := project s; cell := cell s; device := t; wafer := wafer s;
     die := die s; device_data := device_data s;
     analysis_function := analysis_function s; analysis := analysis s |}.

Definition set_wafer (t : gmap Z Wafer.t) (s : Store) : Store :=
  {| project := project s; cell := cell s; device := device s; wafer := t;
     die := die s; device_data := device_data s;
     analysis_function := analysis_function s; analysis := analysis s |}.

Definition set_die (t : gmap Z Die.t) (s : Store) : Store :=
  {| project := project s; cell := cell s; device := device s;
     wafer := wafer s; die := t; device_data := device_data s;
     analysis_function := analysis_function s; analysis := analysis s |}.

Definition set_device_data (t : gmap Z DeviceData.t) (s : Store) : Store :=
  {| project := project s; cell := cell s; device := device s;
     wafer := wafer s; die := die s; device_data := t;
     analysis_function := analysis_function s; analysis := analysis s |}.

Definition set_analysis_function (t : gmap Z AnalysisFunction.t) (s : Store)
  : Store :=
  {| project := project s; cell := cell s; device := device s;
     wafer := wafer s; die := die s; device_data := device_data s;
     analysis_function := t; analysis := analysis s |}.

Definition set_analysis (t : gmap Z Analysis.t) (s : Store) : Store :=
  {| project := project s; cell := cell s; device := device s;
     wafer := wafer s; die := die s; device_data := device_data s;
     analysis_function := analysis_function s; analysis := t |}.

(** ** Errors and computations on the store *)

(** [ConstraintViolation n]: the engine's integrity error for the CHECK,
    UNIQUE or PRIMARY KEY constraint named [n].  [NotFound]: the row asked
    for does not exist; it is also the answer of an engine that enforces
    foreign keys to a reference that names no row.  [IndexError] and
    [AttributeError] are the Python exceptions of [analysis_id]. *)
Inductive Error :=
  | ConstraintViolation (name : string)
  | NotFound
  | IndexError
  | AttributeError.

(** A computation returns an error or a value, and the store it leaves. *)
Definition M (A : Type) : Type := Store → (Error + A) * Store.

#[export] Instance M_ret : MRet M := λ A a s, (inr a, s).

#[export] Instance M_bind : MBind M := λ A B f m s,
  match m s with
  | (inr a, s') => f a s'
  | (inl e, s') => (inl e, s')
  end.

Definition fail {A} (e : Error) : M A := λ s, (inl e, s).

Definition gets {A} (f : Store → A) : M A := λ s, (inr (f s), s).

(** A transaction: when the body fails, every write it made is rolled
    back. *)
Definition atomically {A} (m : M A) : M A := λ s,
  match m s with
  | (inl e, _) => (inl e, s)
  | (inr a, s') => (inr a, s')
  end.

(** ** INSERT *)

(** The key the engine generates when [pkey] is left [None]: one more than
    the largest key in use, and 1 in an empty table. *)
Definition fresh_pkey {A} (t : gmap Z A) : Z :=
  1 + map_fold (λ k _ m, Z.max k m) 0 t.

(** The first CHECK constraint, in declaration order, that the row
    fails. *)
Fixpoint first_check {A} (cs : list (string * (A → bool))) (row : A)
  : option string :=
  match cs with
  | [] => None
  | (n, c) :: cs => if c row then first_check cs row else Some n
  end.

(** Some stored row is a duplicate of [row] for the index [dup]. *)
Definition collides {A} (dup : A → A → bool) (t : gmap Z A) (row : A) : bool :=
  bool_decide (map_Exists (λ _ r, dup r row = true) t).

(** The first UNIQUE constraint, in declaration order, that the row
    breaks. *)
Fixpoint first_unique {A} (us : list (string * (A → A → bool)))
    (t : gmap Z A) (row : A) : option string :=
  match us with
  | [] => None
  | (n, dup) :: us =>
      if collides dup t row then Some n else first_unique us t row
  end.

(** A foreign key column resolves: NULL references nothing; a value is the
    key of a row of the referenced table. *)
Definition references {B} (t : gmap Z B) (ref : option Z) : bool :=
  match ref with
  | None => true
  | Some k => bool_decide (is_Some (t !! k))
  end.

(** [database.py]: the engine is created on SQLite (the default URL is
    [sqlite:///~/.gdatasea.db], and [check_same_thread], an argument only
    SQLite's driver takes, is passed whatever the URL) with no other
    connection argument and no statement run on connect.  SQLite keeps its
    [foreign_keys] pragma OFF unless a connection turns it on: the FOREIGN
    KEY clauses of the tables are declared, and not enforced. *)
Definition pragma_foreign_keys : bool := false.

(** The engine's verdict on the foreign keys of a statement; [resolved]
    tells whether every reference of the row names a row. *)
Definition foreign_keys_pass (resolved : bool) : bool :=
  negb pragma_foreign_keys || resolved.

(** The engine's decision on one INSERT: CHECK constraints of the row
    first, then the primary key, then the unique indexes, and the verdict
    [fks] on the foreign keys at the end of the statement.  Returns the key
    of the new row. *)
Definition place {A} (cs : list (string * (A → bool)))
    (us : list (string * (A → A → bool))) (fks : bool)
    (t : gmap Z A) (pkey : option Z) (row : A) : Error + Z :=
  let k := default (fresh_pkey t) pkey in
  match first_check cs row with
  | Some n => inl (ConstraintViolation n)
  | None =>
      if bool_decide (is_Some (t !! k)) then inl (ConstraintViolation "pkey")
      else match first_unique us t row with
           | Some n => inl (ConstraintViolation n)
           | None => if fks then inr k else inl NotFound
           end
  end.

Definition insert_project (pkey : option Z) (r : Project.t) : M Z := λ s,
  match place [] Project.uniques true (project s) pkey r with
  | inl e => (inl e, s)
  | inr k => (inr k, set_project (<[k:=r]> (project s)) s)
  end.

Definition insert_cell (pkey : option Z) (r : Cell.t) : M Z := λ s,
  match place [] Cell.uniques
          (foreign_keys_pass
             (references (project s) (Some (Cell.project_pkey r))))
          (cell s) pkey r with
  | inl e => (inl e, s)
  | inr k => (inr k, set_cell (<[k:=r]> (cell s)) s)
  end.

Definition insert_device (pkey : option Z) (r : Device.t) : M Z := λ s,
  match place Device.checks Device.uniques
          (foreign_keys_pass
             (references (cell s) (Some (Device.cell_pkey r))
              && references (cell s) (Device.parent_cell_pkey r)))
          (device s) pkey r with
  | inl e => (inl e, s)
  | inr k => (inr k, set_device (<[k:=r]> (device s)) s)
  end.

Definition insert_wafer (pkey : option Z) (r : Wafer.t) : M Z := λ s,
  match place [] Wafer.uniques
          (foreign_keys_pass
             (references (project s) (Some (Wafer.project_pkey r))))
          (wafer s) pkey r with
  | inl e => (inl e, s)
  | inr k => (inr k, set_wafer (<[k:=r]> (wafer s)) s)
  end.

Definition insert_die (pkey : option Z) (r : Die.t) : M Z := λ s,
  match place [] Die.uniques
          (foreign_keys_pass
             (references (wafer s) (Some (Die.wafer_pkey r))))
          (die s) pkey r with
  | inl e => (inl e, s)
  | inr k => (inr k, set_die (<[k:=r]> (die s)) s)
  end.

Definition insert_device_data (pkey : option Z) (r : DeviceData.t) : M Z :=
  λ s,
  match place [] []
          (foreign_keys_pass
             (references (device s) (DeviceData.device_pkey r)
              && references (die s) (DeviceData.die_pkey r)))
          (device_data s) pkey r with
  | inl e => (inl e, s)
  | inr k => (inr k, set_device_data (<[k:=r]> (device_data s)) s)
  end.

Definition insert_analysis_function (pkey : option Z)
    (r : AnalysisFunction.t) : M Z := λ s,
  match place [] AnalysisFunction.uniques true
          (analysis_function s) pkey r with
  | inl e => (inl e, s)
  | inr k =>
      (inr k, set_analysis_function (<[k:=r]> (analysis_function s)) s)
  end.

Definition insert_analysis (pkey : option Z) (r : Analysis.t) : M Z := λ s,
  match place Analysis.checks []
          (foreign_keys_pass
             (references (device_data s) (Analysis.device_data_pkey r)
              && references (die s) (Analysis.die_pkey r)
              && references (wafer s) (Analysis.wafer_pkey r)
              && references (analysis_function s)
                   (Some (Analysis.analysis_function_pkey r))))
          (analysis s) pkey r with
  | inl e => (inl e, s)
  | inr k => (inr k, set_analysis (<[k:=r]> (analysis s)) s)
  end.

(** ** [Analysis.analysis_id] *)

(** Python's [if v] on an [Optional[int]]: [None] and [0] are false. *)
Definition truthy (v : option Z) : bool :=
  match v with
  | Some n => negb (n =? 0)
  | None => false
  end.

(** Python's [str(v)]. *)
Definition str (v : option Z) : string :=
  match v with
  | Some n => pretty n
  | None => "None"
  end.

(** The property reads the row and, through the [analysis_function]
    relationship, the function the row points to.  The list is built and
    indexed before the relationship is read. *)
Definition analysis_id (s : Store) (self : Analysis.t) : Error + string :=
  let mapping :=
    [("Device Data", Analysis.device_data_pkey self);
     ("Die", Analysis.die_pkey self);
     ("Wafer", Analysis.wafer_pkey self)] in
  match (λ kv, kv.1 +:+ " #" +:+ str kv.2)
          <$> filter (λ kv, truthy kv.2 = true) mapping with
  | [] => inl IndexError
  | model_pkey :: _ =>
      match analysis_function s !! Analysis.analysis_function_pkey self with
      | None => inl AttributeError
      | Some f =>
          inr (AnalysisFunction.analysis_function_id f +:+ " on "
               +:+ model_pkey)
      end
  end.

(** ** The target of an analysis *)

(** The entity an analysis function runs on: a row of [device_data], of
    [die] or of [wafer]. *)
Inductive Target :=
  | OnDeviceData (pkey : Z)
  | OnDie (pkey : Z)
  | OnWafer (pkey : Z).

(** What the target looks like when the function runs. *)
Inductive TargetState :=
  | DeviceDataState (r : DeviceData.t)
  | DieState (r : Die.t)
  | WaferState (r : Wafer.t).

#[export] Instance AnalysisFunctionTargetModel_eq_dec :
  EqDecision AnalysisFunctionTargetModel.
Proof. solve_decision. Defined.

Definition target_model_of (target : Target) : AnalysisFunctionTargetModel :=
  match target with
  | OnDeviceData _ => target_device_data
  | OnDie _ => target_die
  | OnWafer _ => target_wafer
  end.

(** The three target columns [(device_data_pkey, die_pkey, wafer_pkey)]. *)
Definition target_columns (target : Target)
  : option Z * option Z * option Z :=
  match target with
  | OnDeviceData k => (Some k, None, None)
  | OnDie k => (None, Some k, None)
  | OnWafer k => (None, None, Some k)
  end.

Definition columns_of (a : Analysis.t) : option Z * option Z * option Z :=
  (Analysis.device_data_pkey a, Analysis.die_pkey a, Analysis.wafer_pkey a).

Definition target_state (s : Store) (target : Target) : option TargetState :=
  match target with
  | OnDeviceData k => DeviceDataState <$> device_data s !! k
  | OnDie k => DieState <$> die s !! k
  | OnWafer k => WaferState <$> wafer s !! k
  end.

(** Exactly one of the three target columns of the row is non-null. *)
Definition exactly_one_target (a : Analysis.t) : Prop :=
  (is_Some (Analysis.device_data_pkey a)
     ∧ Analysis.die_pkey a = None ∧ Analysis.wafer_pkey a = None)
  ∨ (Analysis.device_data_pkey a = None
     ∧ is_Some (Analysis.die_pkey a) ∧ Analysis.wafer_pkey a = None)
  ∨ (Analysis.device_data_pkey a = None
     ∧ Analysis.die_pkey a = None ∧ is_Some (Analysis.wafer_pkey a)).

(** Two rows are results of the same function on the same target. *)
Definition same_pair (a b : Analysis.t) : Prop :=
  Analysis.analysis_function_pkey a = Analysis.analysis_function_pkey b
  ∧ columns_of a = columns_of b.

(** At most one row of each (function, target) pair is flagged latest. *)
Definition at_most_one_latest (t : gmap Z Analysis.t) : Prop :=
  ∀ k1 k2 a1 a2,
    t !! k1 = Some a1 → t !! k2 = Some a2 → same_pair a1 a2 →
    Analysis.is_latest a1 = true → Analysis.is_latest a2 = true → k1 = k2.

(** Of two rows of a pair, the one with the smaller key is not flagged
    latest: generated keys grow, so that one is the older row. *)
Definition older_not_latest (t : gmap Z Analysis.t) : Prop :=
  ∀ k1 k2 a1 a2,
    t !! k1 = Some a1 → t !! k2 = Some a2 → same_pair a1 a2 →
    k1 < k2 → Analysis.is_latest a1 = false.

(** Every pair that has a row has a row flagged latest. *)
Definition some_latest (t : gmap Z Analysis.t) : Prop :=
  ∀ k a, t !! k = Some a →
         ∃ k' a', t !! k' = Some a' ∧ same_pair a a'
                  ∧ Analysis.is_latest a' = true.

(** ** The analysis cache *)

Section AnalysisCache.

(** The content fingerprint over the parameters and the state of the
    target; the protocol only compares its values. *)
Variable fingerprint : Json → TargetState → string.

Definition is_latest_for (function : Z) (target : Target) (a : Analysis.t)
  : bool :=
  Analysis.is_latest a
  && (Analysis.analysis_function_pkey a =? function)
  && bool_decide (columns_of a = target_columns target).

(** The row flagged latest for the pair, with its key: the first one in
    the table's enumeration. *)
Definition latest_analysis (function : Z) (target : Target) (s : Store)
  : option (Z * Analysis.t) :=
  snd <$> list_find (λ kv, is_latest_for function target kv.2 = true)
            (map_to_list (analysis s)).

Definition lookup_or_fail {A} (read : Store → option A) : M A := λ s,
  match read s with
  | Some a => (inr a, s)
  | None => (inl NotFound, s)
  end.

(** [UPDATE analysis SET is_latest = false WHERE pkey = k]; the engine
    evaluates the CHECK constraints on the updated row. *)
Definition demote (k : Z) : M unit := λ s,
  match analysis s !! k with
  | None => (inl NotFound, s)
  | Some a =>
      let a' := Analysis.set_is_latest false a in
      match first_check Analysis.checks a' with
      | Some n => (inl (ConstraintViolation n), s)
      | None => (inr tt, set_analysis (<[k:=a']> (analysis s)) s)
      end
  end.

(** The row [record_result] writes: flagged latest, with the default
    [attributes]. *)
Definition new_analysis (function : Z) (target : Target)
    (parameters output : Json) (summary_plot input_hash : string) (now : Z)
  : Analysis.t :=
  {| Analysis.timestamp := now;
     Analysis.parameters := parameters;
     Analysis.output := output;
     Analysis.summary_plot := summary_plot;
     Analysis.attributes := empty_dict;
     Analysis.is_latest := true;
     Analysis.input_hash := input_hash;
     Analysis.device_data_pkey := (target_columns target).1.1;
     Analysis.die_pkey := (target_columns target).1.2;
     Analysis.wafer_pkey := (target_columns target).2;
     Analysis.analysis_function_pkey := function |}.

(** Modelled from the spec: [record_result], the memoization and
    supersession protocol of the analysis cache (section 4.4, steps 1 to
    5); the repository's sources declare the [analysis] table only.  The
    target is read first ([NotFound] when missing) and fingerprinted with
    the parameters; the fingerprint is compared with the one of the current
    latest row of the pair; on a match that row is returned and nothing is
    written; otherwise the target kind is validated against the function's
    [target_model], the new row is inserted with [is_latest = true] and
    the previous latest row, if any, is demoted, as one transaction. *)
Definition record_result (function : Z) (target : Target)
    (parameters output : Json) (summary_plot : string) (now : Z)
  : M (Z * Analysis.t) :=
  atomically (
    state ← lookup_or_fail (λ s, target_state s target);
    let input_hash := fingerprint parameters state in
    previous ← gets (latest_analysis function target);
    let supersede : M (Z * Analysis.t) :=
      f ← lookup_or_fail (λ s, analysis_function s !! function);
      if decide (AnalysisFunction.target_model f = target_model_of target)
      then
        let row :=
          new_analysis function target parameters output summary_plot
            input_hash now in
        k ← insert_analysis None row;
        _ ← match previous with
            | Some (k0, _) => demote k0
            | None => mret tt
            end;
        mret (k, row)
      else fail (ConstraintViolation "analysis_pkeys_xor_constraint") in
    match previous with
    | Some (k0, a0) =>
        if bool_decide (Analysis.input_hash a0 = input_hash)
        then mret (k0, a0)
        else supersede
    | None => supersede
    end).

(** ** Reachable stores *)

(** What a caller can ask of the store: create a row of any table, with or
    without an explicit [pkey], and record an analysis result. *)
Inductive Command :=
  | CreateProject (pkey : option Z) (r : Project.t)
  | CreateCell (pkey : option Z) (r : Cell.t)
  | CreateDevice (pkey : option Z) (r : Device.t)
  | CreateWafer (pkey : option Z) (r : Wafer.t)
  | CreateDie (pkey : option Z) (r : Die.t)
  | CreateDeviceData (pkey : option Z) (r : DeviceData.t)
  | CreateAnalysisFunction (pkey : option Z) (r : AnalysisFunction.t)
  | CreateAnalysis (pkey : option Z) (r : Analysis.t)
  | RecordResult (function : Z) (target : Target)
      (parameters output : Json) (summary_plot : string) (now : Z).

(** The store a command leaves; a rejected command leaves it as it was. *)
Definition exec (c : Command) (s : Store) : Store :=
  match c with
  | CreateProject pkey r => (insert_project pkey r s).2
  | CreateCell pkey r => (insert_cell pkey r s).2
  | CreateDevice pkey r => (insert_device pkey r s).2
  | CreateWafer pkey r => (insert_wafer pkey r s).2
  | CreateDie pkey r => (insert_die pkey r s).2
  | CreateDeviceData pkey r => (insert_device_data pkey r s).2
  | CreateAnalysisFunction pkey r => (insert_analysis_function pkey r s).2
  | CreateAnalysis pkey r => (insert_analysis pkey r s).2
  | RecordResult function target parameters output summary_plot now =>
      (record_result function target parameters output summary_plot now s).2
  end.

Definition run (cs : list Command) (s : Store) : Store :=
  foldl (λ s c, exec c s) s cs.

Definition reachable (s : Store) : Prop := ∃ cs, run cs empty_store = s.

End AnalysisCache.

(** ** Concurrent callers of [record_result]

    Section 5 of the specification has several callers of [record_result]
    at once.  A caller reads the store (steps 1 to 3) whenever it gets to
    it, and writes (step 4) in one transaction; the events of different
    callers, and the commands of other clients, happen in any order. *)

(** Modelled from the spec: the arguments of one call of
    [record_result]. *)
Record Call := {
  call_function : Z;
  call_target : Target;
  call_parameters : Json;
  call_output : Json;
  call_summary_plot : string;
  call_now : Z
}.

(** Modelled from the spec: where a caller is.  It has not read the store
    yet; it has read it and found no latest row with the fingerprint of
    its input; it has returned. *)
Inductive Phase :=
  | Waiting
  | Missed
  | Returned (result : Error + Z * Analysis.t).

(** Modelled from the spec: steps 1 to 3 of section 4.4 as a caller runs
    them on the store it sees, before any transaction: the target is read
    and fingerprinted with the parameters, and the latest row of the pair is
    looked up; when its fingerprint is the one of the input the caller
    returns it, and otherwise goes on to write. *)
Definition look (fingerprint : Json → TargetState → string) (c : Call)
    (s : Store) : Phase :=
  match target_state s (call_target c) with
  | None => Returned (inl NotFound)
  | Some state =>
      match latest_analysis (call_function c) (call_target c) s with
      | Some (k, a) =>
          if bool_decide (Analysis.input_hash a
                          = fingerprint (call_parameters c) state)
          then Returned (inr (k, a))
          else Missed
      | None => Missed
      end
  end.

(** Modelled from the spec: step 4 of section 4.4 as section 5 prescribes
    it: one transaction, serialised with the other writers of the pair,
    inside which the lookup and the comparison of the fingerprints are
    made again on the store as it is by then. *)
Definition commit (fingerprint : Json → TargetState → string) (c : Call)
  : M (Z * Analysis.t) :=
  record_result fingerprint (call_function c) (call_target c)
    (call_parameters c) (call_output c) (call_summary_plot c) (call_now c).

(** Modelled from the spec: what happens next.  The caller at the given
    position makes its next step, or a command is run. *)
Inductive Event :=
  | Step (caller : nat)
  | Run (c : Command).

(** Modelled from the spec: the next step of caller [i].  A caller that
    waits reads the store; one that has missed runs its transaction on the
    store as it is now and returns; one that has returned does nothing. *)
Definition step (fingerprint : Json → TargetState → string) (i : nat)
    (callers : list (Call * Phase)) (s : Store)
  : list (Call * Phase) * Store :=
  match callers !! i with
  | Some (c, Waiting) => (<[i:=(c, look fingerprint c s)]> callers, s)
  | Some (c, Missed) =>
      (<[i:=(c, Returned (commit fingerprint c s).1)]> callers,
       (commit fingerprint c s).2)
  | _ => (callers, s)
  end.

(** Modelled from the spec: one event. *)
Definition occur (fingerprint : Json → TargetState → string) (e : Event)
    (st : list (Call * Phase) * Store) : list (Call * Phase) * Store :=
  match e with
  | Step i => step fingerprint i st.1 st.2
  | Run c => (st.1, exec fingerprint c st.2)
  end.

(** Modelled from the spec: the callers and the store after the events, in
    the order in which they happen; the steps of different callers
    interleave freely. *)
Definition interleaved (fingerprint : Json → TargetState → string)
    (es : list Event) (st : list (Call * Phase) * Store)
  : list (Call * Phase) * Store :=
  foldl (λ st e, occur fingerprint e st) st es.

(** The event writes an [analysis] row without going through
    [record_result]. *)
Definition direct_analysis (e : Event) : bool :=
  match e with
  | Run (CreateAnalysis _ _) => true
  | _ => false
  end.

(** ** Predicates on stores *)

(** Every stored device and analysis row satisfies the CHECK constraints
    of its table. *)
Definition checked (s : Store) : Prop :=
  (∀ k d, device s !! k = Some d →
          ∀ n c, (n, c) ∈ Device.checks → c d = true)
  ∧ (∀ k a, analysis s !! k = Some a →
            Analysis.analysis_pkeys_xor_constraint a = true).

(** Every row of [t] is still in [t'], under the same key and with the same
    columns, except that [is_latest] may have been cleared. *)
Definition retained (t t' : gmap Z Analysis.t) : Prop :=
  ∀ k a, t !! k = Some a →
         t' !! k = Some a ∨ t' !! k = Some (Analysis.set_is_latest false a).

(** The columns of the index [unique_coord_cells_on_device]. *)
Definition placement (d : Device.t)
  : option Z * Z * option Q * option Q * option Q * option bool :=
  (Device.parent_cell_pkey d, Device.cell_pkey d,
   Device.x d, Device.y d, Device.angle d, Device.mirror d).

(** Two nullable floats are both null, or the same number. *)
Definition same_number (a b : option Q) : Prop :=
  match a, b with
  | Some u, Some v => (u == v)%Q
  | None, None => True
  | _, _ => False
  end.

(** The two devices have the same
    [(parent_cell_pkey, cell_pkey, x, y, angle, mirror)]. *)
Definition same_placement (a b : Device.t) : Prop :=
  Device.parent_cell_pkey a = Device.parent_cell_pkey b
  ∧ Device.cell_pkey a = Device.cell_pkey b
  ∧ same_number (Device.x a) (Device.x b)
  ∧ same_number (Device.y a) (Device.y b)
  ∧ same_number (Device.angle a) (Device.angle b)
  ∧ Device.mirror a = Device.mirror b.


(** ** Example data

    The scenario of the specification's section 8: project ["P1"], cells
    ["top"] and ["leaf"], the placed device ["inst0"], a wafer with one die,
    one measurement, and two analysis functions. *)

Definition temp_fingerprint (parameters : Json) (state : TargetState)
  : string :=
  match parameters with
  | JDict m =>
      match m !! "temp" with
      | Some (JInt z) => pretty z
      | _ => ""
      end
  | _ => ""
  end.

Definition P1 : Project.t :=
  {| Project.project_id := "P1"; Project.suffix := "gds";
     Project.description := None; Project.timestamp := 0 |}.

Definition top : Cell.t :=
  {| Cell.cell_id := "top"; Cell.attributes := empty_dict;
     Cell.project_pkey := 1; Cell.timestamp := 1 |}.

Definition leaf : Cell.t :=
  {| Cell.cell_id := "leaf"; Cell.attributes := empty_dict;
     Cell.project_pkey := 1; Cell.timestamp := 2 |}.

Definition inst0 : Device.t :=
  {| Device.cell_pkey := 2; Device.device_id := "inst0";
     Device.attributes := empty_dict;
     Device.x := Some (10 # 1)%Q; Device.y := Some (20 # 1)%Q;
     Device.angle := Some (90 # 1)%Q; Device.mirror := Some false;
     Device.parent_cell_pkey := Some 1; Device.timestamp := 3 |}.

Definition W1 : Wafer.t :=
  {| Wafer.wafer_id := "W1"; Wafer.description := None;
     Wafer.lot_id := None; Wafer.attributes := empty_dict;
     Wafer.timestamp := 4; Wafer.project_pkey := 1 |}.

Definition die00 : Die.t :=
  {| Die.x := 0; Die.y := 0; Die.die_id := None;
     Die.attributes := empty_dict; Die.wafer_pkey := 1;
     Die.timestamp := 5 |}.

Definition iv_data : DeviceData.t :=
  {| DeviceData.data_type := measurement; DeviceData.path := "iv.csv";
     DeviceData.thumbnail_path := None;
     DeviceData.attributes := empty_dict;
     DeviceData.plotting_kwargs := empty_dict; DeviceData.valid := true;
     DeviceData.device_pkey := Some 1; DeviceData.die_pkey := None;
     DeviceData.timestamp := 6; DeviceData.timestamp_acquired := None |}.

Definition iv_curve : AnalysisFunction.t :=
  {| AnalysisFunction.timestamp := 7;
     AnalysisFunction.analysis_function_id := "iv_curve";
     AnalysisFunction.version := 1; AnalysisFunction.hash := "abc";
     AnalysisFunction.function_path := "iv_curve.py";
     AnalysisFunction.target_model := target_device_data;
     AnalysisFunction.test_target_model_pkey := 1 |}.

Definition die_yield : AnalysisFunction.t :=
  {| AnalysisFunction.timestamp := 8;
     AnalysisFunction.analysis_function_id := "die_yield";
     AnalysisFunction.version := 1; AnalysisFunction.hash := "def";
     AnalysisFunction.function_path := "die_yield.py";
     AnalysisFunction.target_model := target_die;
     AnalysisFunction.test_target_model_pkey := 0 |}.

(** The die is created with the explicit key 0; every other key is
    generated. *)
Definition setup : list Command :=
  [CreateProject None P1; CreateCell None top; CreateCell None leaf;
   CreateDevice None inst0; CreateWafer None W1; CreateDie (Some 0) die00;
   CreateDeviceData None iv_data; CreateAnalysisFunction None iv_curve;
   CreateAnalysisFunction None die_yield].

Definition demo : Store := run temp_fingerprint setup empty_store.

(** An analysis row with the given target columns and function. *)
Definition analysis_on (device_data_pkey die_pkey wafer_pkey : option Z)
    (function : Z) : Analysis.t :=
  {| Analysis.timestamp := 9; Analysis.parameters := empty_dict;
     Analysis.output := empty_dict; Analysis.summary_plot := "plot.png";
     Analysis.attributes := empty_dict;
     Analysis.is_latest := Analysis.is_latest_default;
     Analysis.input_hash := "h";
     Analysis.device_data_pkey := device_data_pkey;
     Analysis.die_pkey := die_pkey; Analysis.wafer_pkey := wafer_pkey;
     Analysis.analysis_function_pkey := function |}.

(** The parameters [{"temp": 25}] and [{"temp": 30}] of the scenario. *)
Definition temp (degrees : Z) : Json := JDict {["temp" := JInt degrees]}.

(** Two rows for the same function and measurement, created one after the
    other without [is_latest] being supplied. *)
Definition two_latest : Store :=
  run temp_fingerprint
    [CreateAnalysis None (analysis_on (Some 1) None None 1);
     CreateAnalysis None (analysis_on (Some 1) None None 1)] demo.

(** A result recorded for the measurement, then a row for the same function
    and measurement created directly, [is_latest] not being supplied. *)
Definition stale_latest : Store :=
  run temp_fingerprint
    [RecordResult 1 (OnDeviceData 1) (temp 25) empty_dict "plot.png" 10;
     CreateAnalysis None (analysis_on (Some 1) None None 1)] demo.

(** Three callers at once: two with the same input, one with another
    parameter.  All three read the store before any of them writes; the
    second caller writes first, then the first, then the third. *)
Definition temp_call (degrees now : Z) : Call :=
  {| call_function := 1; call_target := OnDeviceData 1;
     call_parameters := temp degrees; call_output := empty_dict;
     call_summary_plot := "plot.png"; call_now := now |}.

Definition racing : list (Call * Phase) :=
  [(temp_call 25 10, Waiting); (temp_call 25 11, Waiting);
   (temp_call 30 12, Waiting)].

Definition race : list Event :=
  [Step 0; Step 1; Step 2; Step 1; Step 0; Step 2].

(** The project and its two cells, before any device is created. *)
Definition cells_only : Store :=
  run temp_fingerprint
    [CreateProject None P1; CreateCell None top; CreateCell None leaf]
    empty_store.

(** The same placement as [inst0] under another name. *)
Definition inst1 : Device.t :=
  {| Device.cell_pkey := 2; Device.device_id := "inst1";
     Device.attributes := empty_dict;
     Device.x := Some (10 # 1)%Q; Device.y := Some (20 # 1)%Q;
     Device.angle := Some (90 # 1)%Q; Device.mirror := Some false;
     Device.parent_cell_pkey := Some 1; Device.timestamp := 13 |}.

(** A second version of ["iv_curve"], and version 1 registered again with
    other code. *)
Definition iv_curve_v2 : AnalysisFunction.t :=
  {| AnalysisFunction.timestamp := 14;
     AnalysisFunction.analysis_function_id := "iv_curve";
     AnalysisFunction.version := 2; AnalysisFunction.hash := "abd";
     AnalysisFunction.function_path := "iv_curve.py";
     AnalysisFunction.target_model := target_device_data;
     AnalysisFunction.test_target_model_pkey := 1 |}.

Definition iv_curve_again : AnalysisFunction.t :=
  {| AnalysisFunction.timestamp := 15;
     AnalysisFunction.analysis_function_id := "iv_curve";
     AnalysisFunction.version := 1; AnalysisFunction.hash := "xyz";
     AnalysisFunction.function_path := "iv_curve.py";
     AnalysisFunction.target_model := target_device_data;
     AnalysisFunction.test_target_model_pkey := 1 |}.

(** A measurement that names no device. *)
Definition orphan_data : DeviceData.t :=
  {| DeviceData.data_type := measurement; DeviceData.path := "iv.csv";
     DeviceData.thumbnail_path := None;
     DeviceData.attributes := empty_dict;
     DeviceData.plotting_kwargs := empty_dict; DeviceData.valid := true;
     DeviceData.device_pkey := None; DeviceData.die_pkey := None;
     DeviceData.timestamp := 16; DeviceData.timestamp_acquired := None |}.

(** The store after a die-level analysis of the die whose key is 0. *)
Definition with_die_analysis : Store :=
  exec temp_fingerprint
    (CreateAnalysis None (analysis_on None (Some 0) None 2)) demo.



(** Two devices of cell ["leaf"] that are placed nowhere. *)
Definition loose (device_id : string) : Device.t :=
  {| Device.cell_pkey := 2; Device.device_id := device_id;
     Device.attributes := empty_dict;
     Device.x := None; Device.y := None; Device.angle := None;
     Device.mirror := None; Device.parent_cell_pkey := None;
     Device.timestamp := 17 |}.

(** ** DELETE and the cascades of the relationships

    Every one-to-many relationship of the models is declared with
    [cascade: "all, delete"]: deleting the parent deletes the children it
    lists ([Project.cells], [Project.wafers], [Cell.devices],
    [Device.device_data], [Wafer.dies], [Wafer.analysis],
    [Die.device_data], [Die.analysis], [DeviceData.analysis],
    [AnalysisFunction.analysis]).  [Device.parent_cell] is a many-to-one
    relationship without a cascade and [Cell] has no relationship over
    [Device.parent_cell_pkey]: a device of another cell that is placed in a
    removed cell stays as it is. *)

(** The object handed to the session for deletion. *)
Inductive Entity :=
  | TheProject (pkey : Z)
  | TheCell (pkey : Z)
  | TheDevice (pkey : Z)
  | TheWafer (pkey : Z)
  | TheDie (pkey : Z)
  | TheDeviceData (pkey : Z)
  | TheAnalysisFunction (pkey : Z)
  | TheAnalysis (pkey : Z).

Definition stored (e : Entity) (s : Store) : bool :=
  match e with
  | TheProject k => bool_decide (is_Some (project s !! k))
  | TheCell k => bool_decide (is_Some (cell s !! k))
  | TheDevice k => bool_decide (is_Some (device s !! k))
  | TheWafer k => bool_decide (is_Some (wafer s !! k))
  | TheDie k => bool_decide (is_Some (die s !! k))
  | TheDeviceData k => bool_decide (is_Some (device_data s !! k))
  | TheAnalysisFunction k => bool_decide (is_Some (analysis_function s !! k))
  | TheAnalysis k => bool_decide (is_Some (analysis s !! k))
  end.

(** The keys of the rows of [t] that satisfy [P]. *)
Definition selected {A} (P : A → bool) (t : gmap Z A) : gset Z :=
  dom (filter (λ kr, P kr.2 = true) t).

(** A nullable foreign key names a key of [g]. *)
Definition refers (ref : option Z) (g : gset Z) : bool :=
  match ref with
  | Some k => bool_decide (k ∈ g)
  | None => false
  end.

(** The rows a deletion removes, table by table: the entity itself and,
    along the cascades, the children of removed rows. *)
Definition gone_project (e : Entity) : gset Z :=
  match e with TheProject k => {[k]} | _ => ∅ end.

Definition gone_analysis_function (e : Entity) : gset Z :=
  match e with TheAnalysisFunction k => {[k]} | _ => ∅ end.

Definition gone_cell (e : Entity) (s : Store) : gset Z :=
  match e with TheCell k => {[k]} | _ => ∅ end
  ∪ selected (λ r, bool_decide (Cell.project_pkey r ∈ gone_project e))
      (cell s).

Definition gone_wafer (e : Entity) (s : Store) : gset Z :=
  match e with TheWafer k => {[k]} | _ => ∅ end
  ∪ selected (λ r, bool_decide (Wafer.project_pkey r ∈ gone_project e))
      (wafer s).

Definition gone_device (e : Entity) (s : Store) : gset Z :=
  match e with TheDevice k => {[k]} | _ => ∅ end
  ∪ selected (λ r, bool_decide (Device.cell_pkey r ∈ gone_cell e s))
      (device s).

Definition gone_die (e : Entity) (s : Store) : gset Z :=
  match e with TheDie k => {[k]} | _ => ∅ end
  ∪ selected (λ r, bool_decide (Die.wafer_pkey r ∈ gone_wafer e s)) (die s).

Definition gone_device_data (e : Entity) (s : Store) : gset Z :=
  match e with TheDeviceData k => {[k]} | _ => ∅ end
  ∪ selected
      (λ r, refers (DeviceData.device_pkey r) (gone_device e s)
            || refers (DeviceData.die_pkey r) (gone_die e s))
      (device_data s).

Definition gone_analysis (e : Entity) (s : Store) : gset Z :=
  match e with TheAnalysis k => {[k]} | _ => ∅ end
  ∪ selected
      (λ r, refers (Analysis.device_data_pkey r) (gone_device_data e s)
            || refers (Analysis.die_pkey r) (gone_die e s)
            || refers (Analysis.wafer_pkey r) (gone_wafer e s)
            || bool_decide (Analysis.analysis_function_pkey r
                            ∈ gone_analysis_function e))
      (analysis s).

(** The table without the rows whose key is in [g]. *)
Definition without {A} (g : gset Z) (t : gmap Z A) : gmap Z A :=
  filter (λ kr, kr.1 ∉ g) t.

(** The store once the rows to remove are removed. *)
Definition pruned (e : Entity) (s : Store) : Store :=
  {| project := without (gone_project e) (project s);
     cell := without (gone_cell e s) (cell s);
     device := without (gone_device e s) (device s);
     wafer := without (gone_wafer e s) (wafer s);
     die := without (gone_die e s) (die s);
     device_data := without (gone_device_data e s) (device_data s);
     analysis_function :=
       without (gone_analysis_function e) (analysis_function s);
     analysis := without (gone_analysis e s) (analysis s) |}.

(** A device that stays is placed in a cell that is removed. *)
Definition placed_in_removed (e : Entity) (s : Store) : bool :=
  bool_decide
    (map_Exists
       (λ _ d, refers (Device.parent_cell_pkey d) (gone_cell e s) = true)
       (device (pruned e s))).

(** [session.delete(e)] and the flush, as one transaction: [NotFound] when
    the entity is not stored.  An engine that enforces foreign keys rejects
    the deletion, with the store as it was, when
    [device.parent_cell_pkey] of a device that stays names a removed cell;
    the engine of [database.py] does not, and the device keeps naming the
    removed cell. *)
Definition session_delete (e : Entity) : M unit := λ s,
  if stored e s then
    if pragma_foreign_keys && placed_in_removed e s
    then (inl (ConstraintViolation "device_parent_cell_pkey_fkey"), s)
    else (inr tt, pruned e s)
  else (inl NotFound, s).

(** ** Histories with deletions *)

Inductive Operation :=
  | Do (c : Command)
  | Delete (e : Entity).

Definition perform (fingerprint : Json → TargetState → string)
    (o : Operation) (s : Store) : Store :=
  match o with
  | Do c => exec fingerprint c s
  | Delete e => (session_delete e s).2
  end.

Definition history (fingerprint : Json → TargetState → string)
    (os : list Operation) (s : Store) : Store :=
  foldl (λ s o, perform fingerprint o s) s os.

(** The stores that creations, recorded results and deletions lead to. *)
Definition attainable (fingerprint : Json → TargetState → string)
    (s : Store) : Prop :=
  ∃ os, history fingerprint os empty_store = s.

(** ** Further predicates on stores *)

(** No two rows of the table are duplicates for the index [dup]. *)
Definition unique_in {A} (dup : A → A → bool) (t : gmap Z A) : Prop :=
  ∀ k1 k2 r1 r2,
    t !! k1 = Some r1 → t !! k2 = Some r2 → dup r1 r2 = true → k1 = k2.

(** Every declared unique index holds in its table. *)
Definition keys_unique (s : Store) : Prop :=
  (∀ n dup, (n, dup) ∈ Project.uniques → unique_in dup (project s))
  ∧ (∀ n dup, (n, dup) ∈ Cell.uniques → unique_in dup (cell s))
  ∧ (∀ n dup, (n, dup) ∈ Device.uniques → unique_in dup (device s))
  ∧ (∀ n dup, (n, dup) ∈ Wafer.uniques → unique_in dup (wafer s))
  ∧ (∀ n dup, (n, dup) ∈ Die.uniques → unique_in dup (die s))
  ∧ (∀ n dup, (n, dup) ∈ AnalysisFunction.uniques →
              unique_in dup (analysis_function s)).

(** Every foreign key along which a relationship cascades names a stored
    row: all of them but [device.parent_cell_pkey]. *)
Definition owned (s : Store) : Prop :=
  (∀ k r, cell s !! k = Some r →
     references (project s) (Some (Cell.project_pkey r)) = true)
  ∧ (∀ k r, device s !! k = Some r →
       references (cell s) (Some (Device.cell_pkey r)) = true)
  ∧ (∀ k r, wafer s !! k = Some r →
       references (project s) (Some (Wafer.project_pkey r)) = true)
  ∧ (∀ k r, die s !! k = Some r →
       references (wafer s) (Some (Die.wafer_pkey r)) = true)
  ∧ (∀ k r, device_data s !! k = Some r →
       references (device s) (DeviceData.device_pkey r) = true
       ∧ references (die s) (DeviceData.die_pkey r) = true)
  ∧ (∀ k r, analysis s !! k = Some r →
       references (device_data s) (Analysis.device_data_pkey r) = true
       ∧ references (die s) (Analysis.die_pkey r) = true
       ∧ references (wafer s) (Analysis.wafer_pkey r) = true
       ∧ references (analysis_function s)
           (Some (Analysis.analysis_function_pkey r)) = true).

(** The parent cell of every placed device is stored. *)
Definition placed (s : Store) : Prop :=
  ∀ k r, device s !! k = Some r →
         references (cell s) (Device.parent_cell_pkey r) = true.

(** Every row of every table of [s] is in [s'] under its key; a row of
    [analysis] may have had its [is_latest] cleared. *)
Definition kept (s s' : Store) : Prop :=
  project s ⊆ project s'
  ∧ cell s ⊆ cell s'
  ∧ device s ⊆ device s'
  ∧ wafer s ⊆ wafer s'
  ∧ die s ⊆ die s'
  ∧ device_data s ⊆ device_data s'
  ∧ analysis_function s ⊆ analysis_function s'
  ∧ retained (analysis s) (analysis s').

(** * Properties *)

(** Reads a table of a store that was just written. *)
Ltac tables :=
  cbn [snd pruned project cell device wafer die device_data
       analysis_function analysis set_project set_cell set_device set_wafer
       set_die set_device_data set_analysis_function set_analysis].

(** ** The engine's INSERT *)

Lemma fresh_pkey_bound {A} (t : gmap Z A) k :
  is_Some (t !! k) → k < fresh_pkey t.
Proof.
  unfold fresh_pkey. revert k.
  apply (map_fold_weak_ind
           (λ (b : Z) (m : gmap Z A), ∀ k, is_Some (m !! k) → k < 1 + b)).
  - intros k [x Hx]. by rewrite lookup_empty in Hx.
  - intros i x m r _ IH k Hk.
    destruct (decide (i = k)) as [->|Hne]; [lia|].
    rewrite lookup_insert_ne in Hk by done. specialize (IH k Hk). lia.
Qed.

Lemma fresh_pkey_fresh {A} (t : gmap Z A) : t !! fresh_pkey t = None.
Proof.
  destruct (t !! fresh_pkey t) eqn:E; [|done].
  assert (fresh_pkey t < fresh_pkey t) by (apply fresh_pkey_bound; eauto).
  lia.
Qed.

Lemma first_check_None {A} (cs : list (string * (A → bool))) row :
  first_check cs row = None ↔ ∀ n c, (n, c) ∈ cs → c row = true.
Proof.
  induction cs as [|[n c] cs IH]; simpl.
  - split; [|done]. intros _ n c H. by apply elem_of_nil in H.
  - destruct (c row) eqn:E.
    + rewrite IH. split.
      * intros H n' c' [Heq|Hin]%elem_of_cons; [congruence|eauto].
      * intros H n' c' Hin. apply (H n'). by right.
    + split; [done|]. intros H.
      specialize (H n c (list_elem_of_here _ _)). congruence.
Qed.

Lemma first_check_Some {A} (cs : list (string * (A → bool))) row n :
  first_check cs row = Some n → ∃ c, (n, c) ∈ cs ∧ c row = false.
Proof.
  induction cs as [|[n' c] cs IH]; simpl; [done|].
  destruct (c row) eqn:E.
  - intros (c' & Hin & Hc)%IH. exists c'. split; [by right|done].
  - intros [= <-]. exists c. split; [by left|done].
Qed.

Lemma collides_true {A} (dup : A → A → bool) (t : gmap Z A) row :
  collides dup t row = true ↔ ∃ k r, t !! k = Some r ∧ dup r row = true.
Proof. unfold collides. by rewrite bool_decide_eq_true. Qed.

Lemma collides_false {A} (dup : A → A → bool) (t : gmap Z A) row :
  collides dup t row = false ↔ ∀ k r, t !! k = Some r → dup r row = false.
Proof.
  rewrite <-not_true_iff_false, collides_true. split.
  - intros H k r Hk. destruct (dup r row) eqn:E; [|done].
    destruct H; eauto.
  - intros H (k & r & Hk & Hd). rewrite (H k r Hk) in Hd. done.
Qed.

Lemma first_unique_None {A} (us : list (string * (A → A → bool)))
    (t : gmap Z A) row :
  first_unique us t row = None ↔
  ∀ n dup, (n, dup) ∈ us → collides dup t row = false.
Proof.
  induction us as [|[n dup] us IH]; simpl.
  - split; [|done]. intros _ n dup H. by apply elem_of_nil in H.
  - destruct (collides dup t row) eqn:E.
    + split; [done|]. intros H.
      specialize (H n dup (list_elem_of_here _ _)). congruence.
    + rewrite IH. split.
      * intros H n' c' [Heq|Hin]%elem_of_cons; [congruence|eauto].
      * intros H n' c' Hin. apply (H n'). by right.
Qed.

(** What an accepted INSERT says about the row and the table. *)
Lemma place_inr {A} cs us fks (t : gmap Z A) pkey row k :
  place cs us fks t pkey row = inr k →
  k = default (fresh_pkey t) pkey
  ∧ t !! k = None
  ∧ (∀ n c, (n, c) ∈ cs → c row = true)
  ∧ (∀ n dup, (n, dup) ∈ us → collides dup t row = false)
  ∧ fks = true.
Proof.
  unfold place. destruct (first_check cs row) eqn:Ec; [done|].
  case_bool_decide as Hk; [done|].
  destruct (first_unique us t row) eqn:Eu; [done|].
  destruct fks; [|done]. intros [= <-].
  split_and!; try done.
  - by apply eq_None_not_Some.
  - by apply first_check_None.
  - by apply first_unique_None.
Qed.

(** When an INSERT is accepted. *)
Lemma place_accepts {A} cs us (t : gmap Z A) pkey row :
  (∀ n c, (n, c) ∈ cs → c row = true) →
  t !! default (fresh_pkey t) pkey = None →
  (∀ n dup, (n, dup) ∈ us → collides dup t row = false) →
  place cs us true t pkey row = inr (default (fresh_pkey t) pkey).
Proof.
  intros Hc Hk Hu. unfold place.
  apply first_check_None in Hc. apply first_unique_None in Hu.
  rewrite Hc, Hu. rewrite bool_decide_eq_false_2; [done|].
  rewrite Hk. by intros [? ?].
Qed.

(** A rejected INSERT is rejected for a constraint or a missing
    reference. *)
Lemma place_inl {A} cs us fks (t : gmap Z A) pkey row e :
  place cs us fks t pkey row = inl e →
  (∃ n, e = ConstraintViolation n) ∨ e = NotFound.
Proof.
  unfold place. destruct (first_check cs row); [intros [= <-]; eauto|].
  case_bool_decide; [intros [= <-]; eauto|].
  destruct (first_unique us t row); [intros [= <-]; eauto|].
  destruct fks; [done|]. intros [= <-]. by right.
Qed.

(** ** The latest row of a pair *)

Lemma is_latest_for_true function target a :
  is_latest_for function target a = true ↔
  Analysis.is_latest a = true
  ∧ Analysis.analysis_function_pkey a = function
  ∧ columns_of a = target_columns target.
Proof.
  unfold is_latest_for.
  rewrite !andb_true_iff, Z.eqb_eq, bool_decide_eq_true. tauto.
Qed.

Lemma latest_analysis_Some function target s k a :
  latest_analysis function target s = Some (k, a) →
  analysis s !! k = Some a ∧ is_latest_for function target a = true.
Proof.
  unfold latest_analysis. intros H.
  apply fmap_Some in H as ([i [k' a']] & Hfind & [= <- <-]).
  apply list_find_Some in Hfind as (Hi & HP & _).
  split; [|done].
  apply elem_of_map_to_list. by eapply list_elem_of_lookup_2.
Qed.

Lemma latest_analysis_None function target s :
  latest_analysis function target s = None →
  ∀ k a, analysis s !! k = Some a → is_latest_for function target a = false.
Proof.
  unfold latest_analysis. intros H k a Hk.
  apply fmap_None in H. rewrite list_find_None, Forall_forall in H.
  apply elem_of_map_to_list in Hk. specialize (H _ Hk). simpl in H.
  by destruct (is_latest_for function target a).
Qed.

Lemma latest_analysis_unique function target s k a :
  at_most_one_latest (analysis s) →
  analysis s !! k = Some a → is_latest_for function target a = true →
  latest_analysis function target s = Some (k, a).
Proof.
  intros Hinv Hk Ha.
  destruct (latest_analysis function target s) as [[k' a']|] eqn:E.
  - apply latest_analysis_Some in E as [Hk' Ha'].
    apply is_latest_for_true in Ha as (? & ? & ?).
    apply is_latest_for_true in Ha' as (? & ? & ?).
    assert (k' = k) as ->.
    { eapply Hinv; eauto. split; congruence. }
    congruence.
  - eapply latest_analysis_None in E; eauto. congruence.
Qed.

(** ** What [record_result] does to the store *)

Lemma record_result_cases fingerprint function target parameters output
    summary_plot now s res s' :
  record_result fingerprint function target parameters output summary_plot
    now s = (res, s') →
  (s' = s
   ∧ match res with
     | inl _ => True
     | inr (k, a) =>
         ∃ state,
           target_state s target = Some state
           ∧ latest_analysis function target s = Some (k, a)
           ∧ Analysis.input_hash a = fingerprint parameters state
     end)
  ∨ ∃ state f k,
      let row :=
        new_analysis function target parameters output summary_plot
          (fingerprint parameters state) now in
      target_state s target = Some state
      ∧ analysis_function s !! function = Some f
      ∧ res = inr (k, row)
      ∧ k = fresh_pkey (analysis s)
      ∧ match latest_analysis function target s with
        | None => s' = set_analysis (<[k:=row]> (analysis s)) s
        | Some (k0, a0) =>
            Analysis.input_hash a0 ≠ fingerprint parameters state
            ∧ s' = set_analysis
                     (<[k0:=Analysis.set_is_latest false a0]>
                        (<[k:=row]> (analysis s))) s
        end.
Proof.
  unfold record_result, atomically, mbind, M_bind, lookup_or_fail, gets.
  destruct (target_state s target) as [state|] eqn:Est;
    [|intros [= <- <-]; by left].
  destruct (latest_analysis function target s) as [[k0 a0]|] eqn:El.
  - case_bool_decide as Hh; [intros [= <- <-]; left; by eauto|].
    destruct (analysis_function s !! function) as [f|] eqn:Ef;
      [|intros [= <- <-]; by left].
    case_decide as Htm; [|intros [= <- <-]; by left].
    unfold insert_analysis.
    destruct (place _ _ _ _ _ _) as [e|k] eqn:Ep;
      [intros [= <- <-]; by left|].
    apply place_inr in Ep as (Hfr & Hk & _).
    apply latest_analysis_Some in El as Hl. destruct Hl as [Hk0 _].
    unfold demote. simpl.
    assert (k ≠ k0) by congruence.
    rewrite lookup_insert_ne by done. rewrite Hk0.
    destruct (Analysis.analysis_pkeys_xor_constraint _);
      [|intros [= <- <-]; by left].
    intros [= <- <-]. right. exists state, f, k. simpl.
    by split_and!.
  - destruct (analysis_function s !! function) as [f|] eqn:Ef;
      [|intros [= <- <-]; by left].
    case_decide as Htm; [|intros [= <- <-]; by left].
    unfold insert_analysis.
    destruct (place _ _ _ _ _ _) as [e|k] eqn:Ep;
      [intros [= <- <-]; by left|].
    apply place_inr in Ep as (Hfr & Hk & _).
    intros [= <- <-]. right. exists state, f, k. simpl.
    by split_and!.
Qed.

Lemma record_result_inv fingerprint function target parameters output
    summary_plot now s res s' :
  record_result fingerprint function target parameters output summary_plot
    now s = (res, s') →
  (s' = s
   ∧ match res with
     | inl _ => True
     | inr (k, a) =>
         ∃ state,
           target_state s target = Some state
           ∧ latest_analysis function target s = Some (k, a)
           ∧ Analysis.input_hash a = fingerprint parameters state
     end)
  ∨ ∃ state f k,
      let row :=
        new_analysis function target parameters output summary_plot
          (fingerprint parameters state) now in
      target_state s target = Some state
      ∧ analysis_function s !! function = Some f
      ∧ res = inr (k, row)
      ∧ analysis s !! k = None
      ∧ match latest_analysis function target s with
        | None => s' = set_analysis (<[k:=row]> (analysis s)) s
        | Some (k0, a0) =>
            Analysis.input_hash a0 ≠ fingerprint parameters state
            ∧ s' = set_analysis
                     (<[k0:=Analysis.set_is_latest false a0]>
                        (<[k:=row]> (analysis s))) s
        end.
Proof.
  intros [H|(state & f & k & Hst & Hf & Hres & -> & H)]%record_result_cases;
    [by left|].
  right. exists state, f, (fresh_pkey (analysis s)).
  split_and!; try done. apply fresh_pkey_fresh.
Qed.

Lemma columns_of_new_analysis function target parameters output summary_plot
    input_hash now :
  columns_of
    (new_analysis function target parameters output summary_plot input_hash
       now) = target_columns target.
Proof. by destruct target. Qed.

Lemma new_analysis_xor function target parameters output summary_plot
    input_hash now :
  Analysis.analysis_pkeys_xor_constraint
    (new_analysis function target parameters output summary_plot input_hash
       now) = true.
Proof. by destruct target. Qed.

Lemma set_is_latest_xor b a :
  Analysis.analysis_pkeys_xor_constraint (Analysis.set_is_latest b a)
  = Analysis.analysis_pkeys_xor_constraint a.
Proof. done. Qed.

Lemma set_is_latest_idemp a :
  Analysis.set_is_latest false (Analysis.set_is_latest false a)
  = Analysis.set_is_latest false a.
Proof. done. Qed.

(** A stored latest row of the same pair as the new row is a latest row for
    the pair the new row was recorded for. *)
Lemma same_pair_new_analysis function target parameters output summary_plot
    input_hash now a :
  same_pair
    (new_analysis function target parameters output summary_plot input_hash
       now) a →
  Analysis.is_latest a = true →
  is_latest_for function target a = true.
Proof.
  intros [Hf Hc] Hl. apply is_latest_for_true. split_and!; [done|done|].
  rewrite <-Hc. apply columns_of_new_analysis.
Qed.

Lemma same_pair_sym a b : same_pair a b → same_pair b a.
Proof. intros [? ?]. by split. Qed.

(** Recording into a table with no latest row for the pair. *)
Lemma insert_latest_at_most_one function target (t : gmap Z Analysis.t) k row :
  at_most_one_latest t →
  (∀ a, same_pair row a → Analysis.is_latest a = true →
        is_latest_for function target a = true) →
  (∀ k' a, t !! k' = Some a → is_latest_for function target a = false) →
  at_most_one_latest (<[k:=row]> t).
Proof.
  intros Hinv Hrow Hnone k1 k2 a1 a2 H1 H2 Hp L1 L2.
  rewrite lookup_insert in H1. rewrite lookup_insert in H2.
  repeat case_decide; simplify_eq; try done;
    try (by eapply Hinv; eauto); exfalso.
  - pose proof (Hrow _ (same_pair_sym _ _ Hp) L1) as Hr.
    by rewrite (Hnone _ _ H1) in Hr.
  - pose proof (Hrow _ Hp L2) as Hr. by rewrite (Hnone _ _ H2) in Hr.
Qed.

(** Recording into a table whose latest row for the pair is demoted. *)
Lemma supersede_at_most_one function target (t : gmap Z Analysis.t) k row
    k0 a0 :
  at_most_one_latest t →
  (∀ a, same_pair row a → Analysis.is_latest a = true →
        is_latest_for function target a = true) →
  t !! k0 = Some a0 → is_latest_for function target a0 = true →
  at_most_one_latest (<[k0:=Analysis.set_is_latest false a0]> (<[k:=row]> t)).
Proof.
  intros Hinv Hrow Hk0 Ha0 k1 k2 a1 a2 H1 H2 Hp L1 L2.
  apply is_latest_for_true in Ha0 as (L0 & F0 & C0).
  assert (∀ k' a, t !! k' = Some a → Analysis.is_latest a = true →
                  is_latest_for function target a = true → k' = k0) as Hold.
  { intros k' a Hk' La (_ & Fa & Ca)%is_latest_for_true.
    eapply Hinv; eauto. split; congruence. }
  rewrite lookup_insert in H1. rewrite lookup_insert in H2.
  case_decide; [simplify_eq; done|].
  case_decide; [simplify_eq; done|].
  rewrite lookup_insert in H1. rewrite lookup_insert in H2.
  repeat case_decide; simplify_eq; try done;
    try (by eapply Hinv; eauto); exfalso.
  - pose proof (Hrow _ (same_pair_sym _ _ Hp) L1) as Hr.
    by pose proof (Hold _ _ H1 L1 Hr).
  - pose proof (Hrow _ Hp L2) as Hr. by pose proof (Hold _ _ H2 L2 Hr).
Qed.

Lemma record_result_at_most_one fingerprint function target parameters output
    summary_plot now s :
  at_most_one_latest (analysis s) →
  at_most_one_latest
    (analysis
       (record_result fingerprint function target parameters output
          summary_plot now s).2).
Proof.
  intros Hinv.
  destruct (record_result _ _ _ _ _ _ _ s) as [res s'] eqn:E. simpl.
  apply record_result_inv in E as [[-> _]|(state & f & k & _ & _ & _ & Hk & E)];
    [done|].
  destruct (latest_analysis function target s) as [[k0 a0]|] eqn:El.
  - destruct E as [_ ->]. simpl.
    apply latest_analysis_Some in El as [Hk0 Ha0].
    eapply supersede_at_most_one; eauto.
    intros a. apply same_pair_new_analysis.
  - subst s'. simpl.
    eapply insert_latest_at_most_one; eauto.
    + intros a. apply same_pair_new_analysis.
    + by apply latest_analysis_None.
Qed.

Lemma retained_refl t : retained t t.
Proof. intros k a H. by left. Qed.

Lemma retained_trans t1 t2 t3 :
  retained t1 t2 → retained t2 t3 → retained t1 t3.
Proof.
  intros H12 H23 k a H1.
  destruct (H12 _ _ H1) as [H2|H2]; destruct (H23 _ _ H2) as [H3|H3]; auto.
Qed.

Lemma record_result_retained fingerprint function target parameters output
    summary_plot now s :
  retained (analysis s)
    (analysis
       (record_result fingerprint function target parameters output
          summary_plot now s).2).
Proof.
  destruct (record_result _ _ _ _ _ _ _ s) as [res s'] eqn:E. simpl.
  apply record_result_inv in E as [[-> _]|(state & f & k & _ & _ & _ & Hk & E)];
    [apply retained_refl|].
  intros k' a Hk'.
  assert (k ≠ k') by congruence.
  destruct (latest_analysis function target s) as [[k0 a0]|] eqn:El.
  - destruct E as [_ ->]. simpl.
    apply latest_analysis_Some in El as [Hk0 _].
    destruct (decide (k0 = k')) as [->|].
    + right. rewrite lookup_insert_eq. congruence.
    + left. by rewrite !lookup_insert_ne.
  - subst s'. simpl. left. by rewrite lookup_insert_ne.
Qed.

(** ** CHECK constraints hold in every reachable store *)

Lemma is_null_true {A} (v : option A) : Sql.is_null v = true ↔ v = None.
Proof. by destruct v. Qed.

Lemma is_not_null_true {A} (v : option A) :
  Sql.is_not_null v = true ↔ is_Some v.
Proof.
  destruct v; simpl; split.
  - by eexists.
  - done.
  - done.
  - by intros [? ?].
Qed.

Lemma xor_exactly_one a :
  Analysis.analysis_pkeys_xor_constraint a = true ↔ exactly_one_target a.
Proof.
  unfold Analysis.analysis_pkeys_xor_constraint, exactly_one_target.
  rewrite <-!is_not_null_true.
  destruct (Analysis.device_data_pkey a), (Analysis.die_pkey a),
    (Analysis.wafer_pkey a); simpl; split; try done;
    try (by intros [(? & ? & ?)|[(? & ? & ?)|(? & ? & ?)]]); intros _.
  - by left.
  - right. by left.
  - right. by right.
Qed.

Lemma placement_check d :
  Device.parent_cell_coordinate_reference_not_null d = true ↔
  (Device.parent_cell_pkey d = None ∧ Device.x d = None ∧ Device.y d = None
     ∧ Device.angle d = None ∧ Device.mirror d = None)
  ∨ (is_Some (Device.parent_cell_pkey d) ∧ is_Some (Device.x d)
     ∧ is_Some (Device.y d) ∧ is_Some (Device.angle d)
     ∧ is_Some (Device.mirror d)).
Proof.
  unfold Device.parent_cell_coordinate_reference_not_null.
  rewrite orb_true_iff, !andb_true_iff, !is_null_true, !is_not_null_true.
  tauto.
Qed.

Lemma exec_checked fingerprint c s :
  checked s → checked (exec fingerprint c s).
Proof.
  intros [Hd Ha]. destruct c as [pk r|pk r|pk r|pk r|pk r|pk r|pk r|pk r|
                                 function target parameters output sp now];
    simpl.
  1-2, 4-7:
    match goal with
    | |- checked (?ins _ _ _).2 =>
        unfold ins; destruct (place _ _ _ _ _ _); by split
    end.
  - unfold insert_device.
    destruct (place _ _ _ _ _ _) as [e|k] eqn:Ep; [by split|].
    apply place_inr in Ep as (_ & _ & Hc & _).
    split; [|done]. simpl. intros k' d Hk'.
    rewrite lookup_insert in Hk'. case_decide; simplify_eq; eauto.
  - unfold insert_analysis.
    destruct (place _ _ _ _ _ _) as [e|k] eqn:Ep; [by split|].
    apply place_inr in Ep as (_ & _ & Hc & _).
    split; [done|]. simpl. intros k' d Hk'.
    rewrite lookup_insert in Hk'. case_decide; simplify_eq; eauto.
    apply (Hc "analysis_pkeys_xor_constraint"). by left.
  - destruct (record_result _ _ _ _ _ _ _ s) as [res s'] eqn:E. simpl.
    apply record_result_inv in E
        as [[-> _]|(state & f & k & _ & _ & _ & Hk & E)]; [by split|].
    destruct (latest_analysis function target s) as [[k0 a0]|] eqn:El.
    + destruct E as [_ ->]. split; [done|]. simpl. intros k' a Hk'.
      apply latest_analysis_Some in El as [Hk0 _].
      rewrite lookup_insert in Hk'. case_decide; simplify_eq.
      { rewrite set_is_latest_xor. eauto. }
      rewrite lookup_insert in Hk'. case_decide; simplify_eq; eauto.
      apply new_analysis_xor.
    + subst s'. split; [done|]. simpl. intros k' a Hk'.
      rewrite lookup_insert in Hk'. case_decide; simplify_eq; eauto.
      apply new_analysis_xor.
Qed.

Lemma run_checked fingerprint cs s :
  checked s → checked (run fingerprint cs s).
Proof.
  revert s. induction cs as [|c cs IH]; intros s Hs; [done|].
  simpl. apply IH. by apply exec_checked.
Qed.

Lemma empty_store_checked : checked empty_store.
Proof. split; intros k r H; simpl in H; by rewrite lookup_empty in H. Qed.

Lemma reachable_checked fingerprint s : reachable fingerprint s → checked s.
Proof.
  intros [cs <-]. apply run_checked, empty_store_checked.
Qed.

(** A row that fails the XOR check is rejected, whatever else it holds. *)
Lemma insert_analysis_xor_rejected pkey a s :
  Analysis.analysis_pkeys_xor_constraint a = false →
  insert_analysis pkey a s
  = (inl (ConstraintViolation "analysis_pkeys_xor_constraint"), s).
Proof.
  intros H. unfold insert_analysis, place. simpl. by rewrite H.
Qed.

(** ** The XOR-target invariant of [analysis] *)

(** C1. In every reachable store, each row of [analysis] has exactly one of
    [device_data_pkey], [die_pkey], [wafer_pkey] non-null; and creating a
    row that has two or three of them set, or none, is rejected with the
    constraint violation [analysis_pkeys_xor_constraint] and leaves the
    store as it was. *)
Theorem analysis_exactly_one_target fingerprint s :
  reachable fingerprint s →
  (∀ k a, analysis s !! k = Some a → exactly_one_target a)
  ∧ (∀ pkey a, ¬ exactly_one_target a →
       insert_analysis pkey a s
       = (inl (ConstraintViolation "analysis_pkeys_xor_constraint"), s)).
Proof.
  intros Hs. split.
  - intros k a Hk. apply xor_exactly_one.
    destruct (reachable_checked _ _ Hs) as [_ Ha]. by apply (Ha k).
  - intros pkey a Ha. apply insert_analysis_xor_rejected.
    rewrite <-xor_exactly_one in Ha. by apply not_true_is_false.
Qed.

Lemma analysis_exactly_one_target_witness :
  exactly_one_target (analysis_on (Some 1) None None 1)
  ∧ insert_analysis None (analysis_on None (Some 0) (Some 1) 2)
      (exec temp_fingerprint
         (CreateAnalysis None (analysis_on (Some 1) None None 1)) demo)
    = (inl (ConstraintViolation "analysis_pkeys_xor_constraint"),
       exec temp_fingerprint
         (CreateAnalysis None (analysis_on (Some 1) None None 1)) demo)
  ∧ insert_analysis None (analysis_on None None None 1)
      (exec temp_fingerprint
         (CreateAnalysis None (analysis_on (Some 1) None None 1)) demo)
    = (inl (ConstraintViolation "analysis_pkeys_xor_constraint"),
       exec temp_fingerprint
         (CreateAnalysis None (analysis_on (Some 1) None None 1)) demo).
Proof.
  assert (reachable temp_fingerprint
            (exec temp_fingerprint
               (CreateAnalysis None (analysis_on (Some 1) None None 1)) demo))
    as Hs.
  { exists (setup ++ [CreateAnalysis None (analysis_on (Some 1) None None 1)]).
    unfold demo, run. by rewrite foldl_app. }
  destruct (analysis_exactly_one_target _ _ Hs) as [Hrows Hreject].
  split_and!.
  - apply (Hrows 1). vm_compute. reflexivity.
  - apply Hreject. intros H%xor_exactly_one. vm_compute in H. discriminate H.
  - apply Hreject. intros H%xor_exactly_one. vm_compute in H. discriminate H.
Defined.

(** ** Placement of a device *)

(** C4. In every reachable store, a device has a parent cell exactly when
    its four placement columns [x], [y], [angle], [mirror] are all
    non-null, and the four are either all null or all non-null. *)
Theorem device_placement_all_or_nothing fingerprint s k d :
  reachable fingerprint s →
  device s !! k = Some d →
  (is_Some (Device.parent_cell_pkey d) ↔
   is_Some (Device.x d) ∧ is_Some (Device.y d)
   ∧ is_Some (Device.angle d) ∧ is_Some (Device.mirror d))
  ∧ ((Device.x d = None ∧ Device.y d = None
      ∧ Device.angle d = None ∧ Device.mirror d = None)
     ∨ (is_Some (Device.x d) ∧ is_Some (Device.y d)
        ∧ is_Some (Device.angle d) ∧ is_Some (Device.mirror d))).
Proof.
  intros Hs Hk.
  destruct (reachable_checked _ _ Hs) as [Hd _].
  assert (Device.parent_cell_coordinate_reference_not_null d = true) as Hc.
  { apply (Hd k d Hk "parent_cell_coordinate_reference_not_null").
    right. by left. }
  apply placement_check in Hc
      as [(Hp & Hx & Hy & Ha & Hm)|(Hp & Hx & Hy & Ha & Hm)].
  - split; [|by left]. rewrite Hp, Hx. split.
    + by intros [? ?].
    + by intros [[? ?] _].
  - split; [|by right]. tauto.
Qed.

Lemma device_placement_all_or_nothing_witness :
  (is_Some (Device.parent_cell_pkey inst0) ↔
   is_Some (Device.x inst0) ∧ is_Some (Device.y inst0)
   ∧ is_Some (Device.angle inst0) ∧ is_Some (Device.mirror inst0))
  ∧ ((Device.x inst0 = None ∧ Device.y inst0 = None
      ∧ Device.angle inst0 = None ∧ Device.mirror inst0 = None)
     ∨ (is_Some (Device.x inst0) ∧ is_Some (Device.y inst0)
        ∧ is_Some (Device.angle inst0) ∧ is_Some (Device.mirror inst0))).
Proof.
  apply (device_placement_all_or_nothing temp_fingerprint demo 1 inst0).
  - exists setup. unfold demo. reflexivity.
  - vm_compute. reflexivity.
Defined.

(** ** The latest flag *)

Lemma run_app fingerprint cs1 cs2 s :
  run fingerprint (cs1 ++ cs2) s
  = run fingerprint cs2 (run fingerprint cs1 s).
Proof. unfold run. apply foldl_app. Qed.

Lemma two_latest_reachable : reachable temp_fingerprint two_latest.
Proof.
  exists (setup ++ [CreateAnalysis None (analysis_on (Some 1) None None 1);
                    CreateAnalysis None (analysis_on (Some 1) None None 1)]).
  rewrite run_app. unfold two_latest, demo. reflexivity.
Qed.

(** C2, as stated, fails on the declared schema: the [analysis] table has
    no constraint on [is_latest], whose default is [True], so two rows of
    the same function and target created one after the other are both
    accepted and both flagged latest. *)
Lemma is_latest_not_enforced :
  reachable temp_fingerprint two_latest
  ∧ analysis two_latest !! 1 = Some (analysis_on (Some 1) None None 1)
  ∧ analysis two_latest !! 2 = Some (analysis_on (Some 1) None None 1)
  ∧ Analysis.is_latest (analysis_on (Some 1) None None 1) = true
  ∧ ¬ at_most_one_latest (analysis two_latest).
Proof.
  assert (analysis two_latest !! 1
          = Some (analysis_on (Some 1) None None 1)) as H1
    by (vm_compute; reflexivity).
  assert (analysis two_latest !! 2
          = Some (analysis_on (Some 1) None None 1)) as H2
    by (vm_compute; reflexivity).
  split_and!; [apply two_latest_reachable|done|done|done|].
  intros H. specialize (H 1 2 _ _ H1 H2). discriminate H; by try split.
Qed.

Lemma older_not_latest_at_most_one t :
  older_not_latest t → at_most_one_latest t.
Proof.
  intros H k1 k2 a1 a2 H1 H2 Hp L1 L2.
  destruct (Z.lt_trichotomy k1 k2) as [Hlt|[Heq|Hgt]]; [|done|].
  - rewrite (H _ _ _ _ H1 H2 Hp Hlt) in L1. done.
  - rewrite (H _ _ _ _ H2 H1 (same_pair_sym _ _ Hp) Hgt) in L2. done.
Qed.

(** A row of the pair the new row is recorded for. *)
Lemma same_pair_new_analysis_inv function target parameters output
    summary_plot input_hash now a :
  same_pair a
    (new_analysis function target parameters output summary_plot input_hash
       now) ↔
  Analysis.analysis_function_pkey a = function
  ∧ columns_of a = target_columns target.
Proof.
  unfold same_pair. rewrite columns_of_new_analysis. done.
Qed.

(** [record_result] demotes the older rows of the pair it writes. *)
Lemma record_result_older fingerprint function target parameters output
    summary_plot now s :
  older_not_latest (analysis s) →
  older_not_latest
    (analysis
       (record_result fingerprint function target parameters output
          summary_plot now s).2).
Proof.
  intros Hinv.
  pose proof (older_not_latest_at_most_one _ Hinv) as Hone.
  destruct (record_result _ _ _ _ _ _ _ s) as [res s'] eqn:E. simpl.
  apply record_result_cases in E
      as [[-> _]|(state & f & k & _ & _ & _ & Hfr & E)]; [done|].
  assert (∀ j a, analysis s !! j = Some a → j < k) as Hmax.
  { intros j a Hj. rewrite Hfr. apply fresh_pkey_bound. by eexists. }
  destruct (latest_analysis function target s) as [[k0 a0]|] eqn:El.
  - destruct E as [_ ->]. simpl.
    apply latest_analysis_Some in El as [Hk0 Ha0].
    apply is_latest_for_true in Ha0 as (L0 & F0 & C0).
    intros k1 k2 a1 a2 H1 H2 Hp Hlt.
    apply lookup_insert_Some in H1 as [[<- <-]|[N1 H1]]; [done|].
    apply lookup_insert_Some in H1 as [[<- <-]|[N1' H1]].
    { exfalso.
      apply lookup_insert_Some in H2 as [[<- <-]|[N2 H2]].
      - pose proof (Hmax _ _ Hk0). lia.
      - apply lookup_insert_Some in H2 as [[<- <-]|[N2' H2]]; [lia|].
        pose proof (Hmax _ _ H2). lia. }
    apply lookup_insert_Some in H2 as [[<- <-]|[N2 H2]].
    { by apply (Hinv k1 k0 a1 a0). }
    apply lookup_insert_Some in H2 as [[<- <-]|[N2' H2]];
      [|by apply (Hinv k1 k2 a1 a2)].
    destruct (Analysis.is_latest a1) eqn:L1; [exfalso|done].
    apply same_pair_new_analysis_inv in Hp as [F1 C1].
    apply N1. apply (Hone k0 k1 a0 a1); try done. split; congruence.
  - subst s'. simpl.
    intros k1 k2 a1 a2 H1 H2 Hp Hlt.
    apply lookup_insert_Some in H1 as [[<- <-]|[N1 H1]].
    { exfalso.
      apply lookup_insert_Some in H2 as [[<- <-]|[N2 H2]]; [lia|].
      pose proof (Hmax _ _ H2). lia. }
    apply lookup_insert_Some in H2 as [[<- <-]|[N2 H2]];
      [|by apply (Hinv k1 k2 a1 a2)].
    destruct (Analysis.is_latest a1) eqn:L1; [exfalso|done].
    apply same_pair_new_analysis_inv in Hp as [F1 C1].
    pose proof (latest_analysis_None _ _ _ El _ _ H1) as Hn.
    assert (is_latest_for function target a1 = true) as Hy
      by by apply is_latest_for_true.
    congruence.
Qed.

(** The row [record_result] writes is flagged latest, and stays so. *)
Lemma record_result_some_latest fingerprint function target parameters output
    summary_plot now s :
  some_latest (analysis s) →
  some_latest
    (analysis
       (record_result fingerprint function target parameters output
          summary_plot now s).2).
Proof.
  intros Hinv.
  destruct (record_result _ _ _ _ _ _ _ s) as [res s'] eqn:E. simpl.
  apply record_result_inv in E
      as [[-> _]|(state & f & k & _ & _ & _ & Hk & E)]; [done|].
  destruct (latest_analysis function target s) as [[k0 a0]|] eqn:El.
  - destruct E as [_ ->]. simpl.
    apply latest_analysis_Some in El as [Hk0 Ha0].
    apply is_latest_for_true in Ha0 as (L0 & F0 & C0).
    assert (k0 ≠ k) as Hne by congruence.
    intros k' a Hk'.
    apply lookup_insert_Some in Hk' as [[<- <-]|[N Hk']].
    { eexists k, _. split_and!.
      - rewrite lookup_insert_ne by done. apply lookup_insert_eq.
      - by apply same_pair_new_analysis_inv.
      - done. }
    apply lookup_insert_Some in Hk' as [[<- <-]|[N' Hk']].
    { eexists k, _. split_and!.
      - rewrite lookup_insert_ne by done. apply lookup_insert_eq.
      - done.
      - done. }
    destruct (Hinv _ _ Hk') as (k'' & a'' & Hk'' & Hp & L).
    destruct (decide (k0 = k'')) as [<-|Hn0].
    + assert (a'' = a0) as -> by congruence.
      eexists k, _. split_and!.
      * rewrite lookup_insert_ne by done. apply lookup_insert_eq.
      * destruct Hp as [Hpf Hpc].
        apply same_pair_new_analysis_inv. split; congruence.
      * done.
    + exists k'', a''. split_and!; [|done|done].
      rewrite lookup_insert_ne by done.
      rewrite lookup_insert_ne by congruence. done.
  - subst s'. simpl. intros k' a Hk'.
    apply lookup_insert_Some in Hk' as [[<- <-]|[N Hk']].
    { eexists k, _. split_and!; [apply lookup_insert_eq|done|done]. }
    destruct (Hinv _ _ Hk') as (k'' & a'' & Hk'' & Hp & L).
    exists k'', a''. split_and!; [|done|done].
    rewrite lookup_insert_ne by congruence. done.
Qed.

(** One event that is not the direct creation of an analysis. *)
Lemma occur_latest fingerprint e callers s :
  direct_analysis e = false →
  older_not_latest (analysis s) → some_latest (analysis s) →
  older_not_latest (analysis (occur fingerprint e (callers, s)).2)
  ∧ some_latest (analysis (occur fingerprint e (callers, s)).2)
  ∧ retained (analysis s) (analysis (occur fingerprint e (callers, s)).2).
Proof.
  intros He Ho Hs.
  assert (older_not_latest (analysis s) ∧ some_latest (analysis s)
          ∧ retained (analysis s) (analysis s)) as Hsame
    by (split_and!; [done|done|apply retained_refl]).
  destruct e as [i|c]; simpl.
  - unfold step. destruct (callers !! i) as [[c []]|]; simpl; try done.
    unfold commit. split_and!.
    + by apply record_result_older.
    + by apply record_result_some_latest.
    + apply record_result_retained.
  - destruct c as [pk r|pk r|pk r|pk r|pk r|pk r|pk r|pk r|
                   function target parameters output sp now]; simpl.
    + unfold insert_project. by destruct (place _ _ _ _ _ _).
    + unfold insert_cell. by destruct (place _ _ _ _ _ _).
    + unfold insert_device. by destruct (place _ _ _ _ _ _).
    + unfold insert_wafer. by destruct (place _ _ _ _ _ _).
    + unfold insert_die. by destruct (place _ _ _ _ _ _).
    + unfold insert_device_data. by destruct (place _ _ _ _ _ _).
    + unfold insert_analysis_function. by destruct (place _ _ _ _ _ _).
    + discriminate He.
    + split_and!.
      * by apply record_result_older.
      * by apply record_result_some_latest.
      * apply record_result_retained.
Qed.

(** C2, amended. Take a store in which, for every (function, target) pair,
    the newest row is the one flagged latest; a store without analysis rows
    is one.  Let any number of callers of [record_result] proceed
    concurrently, their reads of the store interleaving in any order and
    each write being one transaction that looks the latest row up again, and
    let rows of the other tables be created in between; no analysis row is
    created directly.  Then, whatever the order of the events, at most one
    row of each pair is flagged latest; every older row of a pair carries
    [is_latest = false]; the newest row of each pair is flagged latest; and
    every row of the store at the start is still there under its key,
    unchanged except that its [is_latest] may have been cleared. *)
Theorem record_result_keeps_one_latest fingerprint callers es s :
  older_not_latest (analysis s) →
  some_latest (analysis s) →
  forallb (λ e, negb (direct_analysis e)) es = true →
  at_most_one_latest
    (analysis (interleaved fingerprint es (callers, s)).2)
  ∧ older_not_latest
      (analysis (interleaved fingerprint es (callers, s)).2)
  ∧ some_latest (analysis (interleaved fingerprint es (callers, s)).2)
  ∧ retained (analysis s)
      (analysis (interleaved fingerprint es (callers, s)).2).
Proof.
  revert callers s. induction es as [|e es IH]; intros callers s Ho Hs Hes.
  - simpl. split_and!; [by apply older_not_latest_at_most_one|done|done|].
    apply retained_refl.
  - simpl in Hes. apply andb_true_iff in Hes as [He Hes].
    apply negb_true_iff in He.
    destruct (occur_latest fingerprint e callers s He Ho Hs)
      as (Ho' & Hs' & Hr).
    change (interleaved fingerprint (e :: es) (callers, s))
      with (interleaved fingerprint es (occur fingerprint e (callers, s))).
    destruct (occur fingerprint e (callers, s)) as [callers' s'].
    destruct (IH callers' s' Ho' Hs' Hes) as (H1 & H2 & H3 & H4).
    split_and!; try done. by eapply retained_trans.
Qed.

Lemma record_result_keeps_one_latest_witness :
  (at_most_one_latest (analysis (interleaved temp_fingerprint race
                                   (racing, demo)).2)
   ∧ older_not_latest (analysis (interleaved temp_fingerprint race
                                   (racing, demo)).2)
   ∧ some_latest (analysis (interleaved temp_fingerprint race
                              (racing, demo)).2)
   ∧ retained (analysis demo)
       (analysis (interleaved temp_fingerprint race (racing, demo)).2))
  ∧ Analysis.is_latest
      <$> analysis (interleaved temp_fingerprint race (racing, demo)).2 !! 1
    = Some false
  ∧ Analysis.is_latest
      <$> analysis (interleaved temp_fingerprint race (racing, demo)).2 !! 2
    = Some true
  ∧ analysis (interleaved temp_fingerprint race (racing, demo)).2 !! 3
    = None
  ∧ snd <$> (interleaved temp_fingerprint race (racing, demo)).1 !! 0%nat
    = Some (Returned
              (inr (1, new_analysis 1 (OnDeviceData 1) (temp 25) empty_dict
                         "plot.png" "25" 11))).
Proof.
  split.
  - apply (record_result_keeps_one_latest temp_fingerprint racing race demo).
    + assert (analysis demo = ∅) as -> by (vm_compute; reflexivity).
      intros k1 k2 a1 a2 H. by rewrite lookup_empty in H.
    + assert (analysis demo = ∅) as -> by (vm_compute; reflexivity).
      intros k a H. by rewrite lookup_empty in H.
    + reflexivity.
  - split_and!; vm_compute; reflexivity.
Defined.

(** ** Idempotent re-runs *)

(** A call whose fingerprint is the one of the current latest row returns
    that row and writes nothing. *)
Lemma record_result_hit fingerprint function target parameters output
    summary_plot now s k a state :
  target_state s target = Some state →
  latest_analysis function target s = Some (k, a) →
  Analysis.input_hash a = fingerprint parameters state →
  record_result fingerprint function target parameters output summary_plot
    now s = (inr (k, a), s).
Proof.
  intros Hst Hl Hh.
  unfold record_result, atomically, mbind, M_bind, lookup_or_fail, gets.
  rewrite Hst, Hl. by rewrite bool_decide_eq_true_2.
Qed.

(** The latest row of a pair that has only one. *)
Lemma latest_analysis_only function target s k a :
  analysis s !! k = Some a →
  is_latest_for function target a = true →
  (∀ k' a', analysis s !! k' = Some a' →
            is_latest_for function target a' = true → k' = k) →
  latest_analysis function target s = Some (k, a).
Proof.
  intros Hk Ha Honly.
  destruct (latest_analysis function target s) as [[k' a']|] eqn:E.
  - apply latest_analysis_Some in E as [Hk' Ha'].
    assert (k' = k) as -> by by eapply Honly.
    congruence.
  - eapply latest_analysis_None in E; eauto. congruence.
Qed.

(** C3, as stated, fails when the pair has more than one row flagged
    latest, which the schema allows: here the rows 1 and 2 are results of
    function 1 on measurement 1 and both are flagged latest; row 1 has the
    fingerprint of the input, yet the lookup finds row 2, and the call
    writes row 3 and clears the flag of row 2. *)
Lemma latest_row_not_found :
  reachable temp_fingerprint stale_latest
  ∧ analysis stale_latest !! 1
    = Some (new_analysis 1 (OnDeviceData 1) (temp 25) empty_dict "plot.png"
              "25" 10)
  ∧ Analysis.is_latest <$> analysis stale_latest !! 2 = Some true
  ∧ target_state stale_latest (OnDeviceData 1)
    = Some (DeviceDataState iv_data)
  ∧ temp_fingerprint (temp 25) (DeviceDataState iv_data) = "25"
  ∧ (record_result temp_fingerprint 1 (OnDeviceData 1) (temp 25) empty_dict
       "plot.png" 11 stale_latest).1
    = inr (3, new_analysis 1 (OnDeviceData 1) (temp 25) empty_dict
                "plot.png" "25" 11)
  ∧ analysis stale_latest !! 3 = None
  ∧ analysis
      (record_result temp_fingerprint 1 (OnDeviceData 1) (temp 25)
         empty_dict "plot.png" 11 stale_latest).2 !! 3
    = Some (new_analysis 1 (OnDeviceData 1) (temp 25) empty_dict "plot.png"
              "25" 11)
  ∧ Analysis.is_latest
      <$> analysis
            (record_result temp_fingerprint 1 (OnDeviceData 1) (temp 25)
               empty_dict "plot.png" 11 stale_latest).2 !! 2
    = Some false.
Proof.
  split.
  - exists (setup ++ [RecordResult 1 (OnDeviceData 1) (temp 25) empty_dict
                        "plot.png" 10;
                      CreateAnalysis None
                        (analysis_on (Some 1) None None 1)]).
    rewrite run_app. unfold stale_latest, demo. reflexivity.
  - split_and!; vm_compute; reflexivity.
Qed.

(** C3, amended. When a row of the pair is flagged latest, is the only row
    of the pair that is, and has as [input_hash] the fingerprint of the new
    parameters and of the target as it stands, [record_result] inserts no
    row, changes no row, and returns that row as it is stored. *)
Theorem record_result_idempotent fingerprint function target parameters
    output summary_plot now s k a state :
  analysis s !! k = Some a →
  Analysis.is_latest a = true →
  Analysis.analysis_function_pkey a = function →
  columns_of a = target_columns target →
  (∀ k' a', analysis s !! k' = Some a' →
            Analysis.is_latest a' = true →
            Analysis.analysis_function_pkey a' = function →
            columns_of a' = target_columns target → k' = k) →
  target_state s target = Some state →
  Analysis.input_hash a = fingerprint parameters state →
  record_result fingerprint function target parameters output summary_plot
    now s = (inr (k, a), s).
Proof.
  intros Hk Hl Hf Hc Honly Hst Hh.
  apply record_result_hit with state; [done| |done].
  apply latest_analysis_only; [done|by apply is_latest_for_true|].
  intros k' a' Hk' (L & F & C)%is_latest_for_true. by eapply Honly.
Qed.

Lemma record_result_idempotent_witness :
  record_result temp_fingerprint 1 (OnDeviceData 1) (temp 25) empty_dict
    "again.png" 11
    (exec temp_fingerprint
       (RecordResult 1 (OnDeviceData 1) (temp 25) empty_dict "plot.png" 10)
       demo)
  = (inr (1, new_analysis 1 (OnDeviceData 1) (temp 25) empty_dict "plot.png"
                "25" 10),
     exec temp_fingerprint
       (RecordResult 1 (OnDeviceData 1) (temp 25) empty_dict "plot.png" 10)
       demo).
Proof.
  apply (record_result_idempotent temp_fingerprint 1 (OnDeviceData 1)
           (temp 25) empty_dict "again.png" 11 _ 1 _
           (DeviceDataState iv_data)).
  - vm_compute. reflexivity.
  - reflexivity.
  - reflexivity.
  - reflexivity.
  - intros k' a' Hk' _ _ _.
    assert (analysis
              (exec temp_fingerprint
                 (RecordResult 1 (OnDeviceData 1) (temp 25) empty_dict
                    "plot.png" 10) demo)
            = {[1 := new_analysis 1 (OnDeviceData 1) (temp 25) empty_dict
                       "plot.png" "25" 10]}) as E
      by (vm_compute; reflexivity).
    rewrite E in Hk'. by apply lookup_singleton_Some in Hk' as [<- _].
  - vm_compute. reflexivity.
  - vm_compute. reflexivity.
Defined.

(** The target tables are not written by [record_result]. *)
Lemma record_result_target_state fingerprint function target parameters
    output summary_plot now s target' :
  target_state
    (record_result fingerprint function target parameters output
       summary_plot now s).2 target'
  = target_state s target'.
Proof.
  destruct (record_result _ _ _ _ _ _ _ s) as [res s'] eqn:E. simpl.
  apply record_result_inv in E
      as [[-> _]|(state & f & k & _ & _ & _ & Hk & E)]; [done|].
  destruct (latest_analysis function target s) as [[k0 a0]|].
  - by destruct E as [_ ->].
  - by subst s'.
Qed.

(** Calling twice with the same function, target and parameters: the second
    call returns the record of the first and leaves the store of the
    first. *)
Lemma record_result_twice fingerprint function target parameters output
    summary_plot now output' summary_plot' now' s k a s' :
  at_most_one_latest (analysis s) →
  record_result fingerprint function target parameters output summary_plot
    now s = (inr (k, a), s') →
  record_result fingerprint function target parameters output'
    summary_plot' now' s' = (inr (k, a), s').
Proof.
  intros Hinv E.
  pose proof (record_result_at_most_one fingerprint function target
                parameters output summary_plot now s Hinv) as Hinv'.
  pose proof (record_result_target_state fingerprint function target
                parameters output summary_plot now s target) as Hst'.
  rewrite E in Hinv', Hst'. simpl in Hinv', Hst'.
  apply record_result_inv in E
      as [[-> (state & Hst & Hl & Hh)]
         |(state & f & k' & Hst & _ & [= -> ->] & Hk & E)].
  - by apply record_result_hit with state.
  - apply record_result_hit with state; [congruence| |done].
    apply latest_analysis_unique; [done| |].
    + destruct (latest_analysis function target s) as [[k0 a0]|] eqn:El.
      * destruct E as [_ ->]. simpl.
        apply latest_analysis_Some in El as [Hk0 _].
        rewrite lookup_insert_ne by congruence. apply lookup_insert_eq.
      * subst s'. simpl. apply lookup_insert_eq.
    + apply is_latest_for_true. split_and!; [done|done|].
      apply columns_of_new_analysis.
Qed.

(** ** Duplicate placements *)

Lemma placement_inv d d' :
  placement d' = placement d →
  Device.parent_cell_pkey d' = Device.parent_cell_pkey d
  ∧ Device.cell_pkey d' = Device.cell_pkey d
  ∧ Device.x d' = Device.x d ∧ Device.y d' = Device.y d
  ∧ Device.angle d' = Device.angle d ∧ Device.mirror d' = Device.mirror d.
Proof. unfold placement. intros [= ? ? ? ? ? ?]. by split_and!. Qed.

(** A placed device is a duplicate of every device with its placement. *)
Lemma same_placement_duplicate d d' :
  placement d' = placement d →
  is_Some (Device.parent_cell_pkey d) →
  is_Some (Device.x d) → is_Some (Device.y d) →
  is_Some (Device.angle d) → is_Some (Device.mirror d) →
  Device.unique_coord_cells_on_device d d' = true.
Proof.
  intros (Hp & Hc & Hx & Hy & Ha & Hm)%placement_inv
         [p Ep] [qx Ex] [qy Ey] [qa Ea] [m Em].
  unfold Device.unique_coord_cells_on_device.
  rewrite Hp, Hc, Hx, Hy, Ha, Hm, Ep, Ex, Ey, Ea, Em. simpl.
  rewrite !Qeq_bool_refl, Z.eqb_refl, Z.eqb_refl.
  by destruct m.
Qed.

(** A column of the index compares TRUE. *)
Lemma same_number_duplicate a b :
  default false (Sql.eq Qeq_bool a b) = true ↔ same_number a b ∧ is_Some b.
Proof.
  destruct a as [u|], b as [v|]; simpl.
  - rewrite Qeq_bool_iff. split; [intros H; split; [done|by eexists]|].
    by intros [H _].
  - split; [done|]. by intros [[] _].
  - split; [done|]. by intros [[] _].
  - split; [done|]. by intros [_ [? ?]].
Qed.

Lemma same_value_duplicate {A} (eqb : A → A → bool) (a b : option A) :
  (∀ u v, eqb u v = true ↔ u = v) →
  default false (Sql.eq eqb a b) = true ↔ a = b ∧ is_Some b.
Proof.
  intros Heqb. destruct a as [u|], b as [v|]; simpl.
  - rewrite Heqb. split; [intros ->; split; [done|by eexists]|].
    by intros [[= ->] _].
  - split; [done|]. by intros [? _].
  - split; [done|]. by intros [? _].
  - split; [done|]. by intros [_ [? ?]].
Qed.

(** Two devices are duplicates for [unique_coord_cells_on_device] exactly
    when the six columns of the index are equal and none of them is
    null. *)
Lemma unique_coord_cells_on_device_true r d :
  Device.unique_coord_cells_on_device r d = true ↔
  same_placement r d
  ∧ is_Some (Device.parent_cell_pkey d)
  ∧ is_Some (Device.x d) ∧ is_Some (Device.y d)
  ∧ is_Some (Device.angle d) ∧ is_Some (Device.mirror d).
Proof.
  unfold Device.unique_coord_cells_on_device, Sql.duplicate, same_placement.
  cbn [forallb]. rewrite !andb_true_iff, !same_number_duplicate.
  rewrite (same_value_duplicate Bool.eqb) by apply Bool.eqb_true_iff.
  rewrite (same_value_duplicate Z.eqb) by apply Z.eqb_eq.
  cbn [default id]. rewrite Z.eqb_eq. intuition.
Qed.

Lemma same_number_sym a b : same_number a b → same_number b a.
Proof. destruct a, b; simpl; first [done|apply Qeq_sym]. Qed.

Lemma same_number_null a b :
  same_number a b → Sql.is_null a = Sql.is_null b.
Proof. by destruct a, b. Qed.

Lemma same_number_is_Some a b : same_number a b → is_Some b → is_Some a.
Proof. destruct a, b; simpl; first [done|by eexists]. Qed.

(** The CHECK constraints of [device] read the placement columns only. *)
Lemma device_checks_same_placement d d' n c :
  same_placement d' d → (n, c) ∈ Device.checks → c d' = c d.
Proof.
  intros (Hp & Hc & Hx & Hy & Ha & Hm) Hin.
  unfold Device.checks in Hin.
  apply elem_of_cons in Hin as [[= -> ->]|Hin].
  { unfold Device.unique_device_cell_references. by rewrite Hp, Hc. }
  apply elem_of_cons in Hin as [[= -> ->]|Hin].
  { unfold Device.parent_cell_coordinate_reference_not_null,
      Sql.is_not_null.
    by rewrite Hp, Hm, (same_number_null _ _ Hx), (same_number_null _ _ Hy),
      (same_number_null _ _ Ha). }
  by apply elem_of_nil in Hin.
Qed.

(** The engine of [database.py] lets every reference pass. *)
Lemma foreign_keys_not_enforced resolved : foreign_keys_pass resolved = true.
Proof. done. Qed.

(** C5, as stated, fails for devices without a parent cell: two devices of
    one cell whose placement columns are all null have the identical tuple
    and are both created. *)
Lemma unplaced_devices_not_unique :
  placement (loose "a") = placement (loose "b")
  ∧ (insert_device None (loose "a") cells_only).1 = inr 1
  ∧ (insert_device None (loose "b")
       (insert_device None (loose "a") cells_only).2).1 = inr 2.
Proof. split_and!; vm_compute; reflexivity. Qed.

(** C5, amended. A device with a parent cell, other than its owning cell,
    and with its four placement columns set is created when no stored
    device has its six columns
    [(parent_cell_pkey, cell_pkey, x, y, angle, mirror)], none has its name
    within its cell, and the key it asks for, if any, is free.  After that,
    creating any device with the same six columns is rejected with a
    constraint violation, of the index [unique_coord_cells_on_device] or of
    the primary key, and leaves the store as it was. *)
Theorem device_placement_unique s pkey d p :
  Device.parent_cell_pkey d = Some p →
  p ≠ Device.cell_pkey d →
  is_Some (Device.x d) → is_Some (Device.y d) →
  is_Some (Device.angle d) → is_Some (Device.mirror d) →
  (∀ k, pkey = Some k → device s !! k = None) →
  (∀ k r, device s !! k = Some r →
          ¬ same_placement r d
          ∧ ¬ (Device.cell_pkey r = Device.cell_pkey d
               ∧ Device.device_id r = Device.device_id d)) →
  ∃ k s1,
    insert_device pkey d s = (inr k, s1)
    ∧ s1 = set_device (<[k:=d]> (device s)) s
    ∧ ∀ pkey' d', same_placement d' d →
        ∃ n, insert_device pkey' d' s1 = (inl (ConstraintViolation n), s1)
             ∧ (n = "unique_coord_cells_on_device" ∨ n = "pkey").
Proof.
  intros Hp Hne Hx Hy Ha Hm Hpk Hfree.
  assert (∀ n c, (n, c) ∈ Device.checks → c d = true) as Hchecks.
  { intros n c Hin. unfold Device.checks in Hin.
    apply elem_of_cons in Hin as [[= -> ->]|Hin].
    { unfold Device.unique_device_cell_references. rewrite Hp. simpl.
      apply negb_true_iff, Z.eqb_neq. done. }
    apply elem_of_cons in Hin as [[= -> ->]|Hin];
      [|by apply elem_of_nil in Hin].
    apply placement_check. right. rewrite Hp. by split_and!. }
  exists (default (fresh_pkey (device s)) pkey).
  eexists. split_and!.
  - unfold insert_device. rewrite foreign_keys_not_enforced.
    rewrite place_accepts; [reflexivity|done| |].
    + destruct pkey as [k|]; simpl; [by apply Hpk|apply fresh_pkey_fresh].
    + intros n dup Hin. apply collides_false. intros k r Hk.
      destruct (Hfree k r Hk) as [H1 H2]. unfold Device.uniques in Hin.
      apply elem_of_cons in Hin as [[= -> ->]|Hin].
      { apply not_true_iff_false.
        intros (Hsame & _)%unique_coord_cells_on_device_true. done. }
      apply elem_of_cons in Hin as [[= -> ->]|Hin];
        [|by apply elem_of_nil in Hin].
      unfold Device.unique_device_ids_per_cell.
      apply not_true_iff_false.
      intros [Hc Hid]%andb_true_iff. apply H2.
      apply Z.eqb_eq in Hc. by apply bool_decide_eq_true in Hid.
  - done.
  - intros pkey' d' Hd'. unfold insert_device, place.
    assert (first_check Device.checks d' = None) as ->.
    { apply first_check_None. intros n c Hin.
      rewrite (device_checks_same_placement d d' n c Hd' Hin). eauto. }
    cbn [device set_device]. case_bool_decide; [eexists; split; eauto|].
    assert (collides Device.unique_coord_cells_on_device
              (<[default (fresh_pkey (device s)) pkey:=d]> (device s)) d'
            = true) as Hdup.
    { apply collides_true. eexists _, d. split; [apply lookup_insert_eq|].
      apply unique_coord_cells_on_device_true.
      destruct Hd' as (Hp' & Hc' & Hx' & Hy' & Ha' & Hm').
      split_and!.
      - split_and!; try done; by apply same_number_sym.
      - rewrite Hp', Hp. by eexists.
      - by eapply same_number_is_Some.
      - by eapply same_number_is_Some.
      - by eapply same_number_is_Some.
      - by rewrite Hm'. }
    unfold Device.uniques, first_unique. rewrite Hdup.
    eexists. split; eauto.
Qed.

Lemma device_placement_unique_witness :
  ∃ k s1,
    insert_device None inst0 cells_only = (inr k, s1)
    ∧ s1 = set_device (<[k:=inst0]> (device cells_only)) cells_only
    ∧ ∀ pkey' d', same_placement d' inst0 →
        ∃ n, insert_device pkey' d' s1 = (inl (ConstraintViolation n), s1)
             ∧ (n = "unique_coord_cells_on_device" ∨ n = "pkey").
Proof.
  assert (device cells_only = ∅) as Hempty by (vm_compute; reflexivity).
  apply (device_placement_unique cells_only None inst0 1).
  - reflexivity.
  - vm_compute. discriminate.
  - by eexists.
  - by eexists.
  - by eexists.
  - by eexists.
  - intros k Hk. discriminate Hk.
  - intros k r Hk. rewrite Hempty, lookup_empty in Hk. discriminate Hk.
Defined.

(** ** Versions of an analysis function *)

(** C6. Registering a version is the INSERT of its row into
    [analysis_function].  When no stored row has the same
    [(analysis_function_id, version)], the row is added under a new key and
    nothing else changes; when one has, the INSERT is rejected with the
    constraint violation [unique_analysis_function_id_version] and the store
    is as it was. *)
Theorem register_unique_version s r :
  ((∀ k r', analysis_function s !! k = Some r' →
            ¬ (AnalysisFunction.analysis_function_id r'
               = AnalysisFunction.analysis_function_id r
               ∧ AnalysisFunction.version r' = AnalysisFunction.version r)) →
   ∃ k, analysis_function s !! k = None
        ∧ insert_analysis_function None r s
          = (inr k,
             set_analysis_function (<[k:=r]> (analysis_function s)) s))
  ∧ ((∃ k r', analysis_function s !! k = Some r'
              ∧ AnalysisFunction.analysis_function_id r'
                = AnalysisFunction.analysis_function_id r
              ∧ AnalysisFunction.version r' = AnalysisFunction.version r) →
     insert_analysis_function None r s
     = (inl (ConstraintViolation "unique_analysis_function_id_version"), s)).
Proof.
  split.
  - intros Hfree. exists (fresh_pkey (analysis_function s)).
    split; [apply fresh_pkey_fresh|].
    unfold insert_analysis_function.
    rewrite place_accepts; [done| | |].
    + intros n c Hin. by apply elem_of_nil in Hin.
    + apply fresh_pkey_fresh.
    + intros n dup Hin. unfold AnalysisFunction.uniques in Hin.
      apply elem_of_cons in Hin as [[= -> ->]|Hin];
        [|by apply elem_of_nil in Hin].
      apply collides_false. intros k r' Hk.
      unfold AnalysisFunction.unique_analysis_function_id_version.
      apply andb_false_iff.
      destruct (decide (AnalysisFunction.analysis_function_id r'
                        = AnalysisFunction.analysis_function_id r))
        as [Hid|Hid]; [|left; by apply bool_decide_eq_false_2].
      right. apply Z.eqb_neq. intros Hv. by apply (Hfree k r' Hk).
  - intros (k & r' & Hk & Hid & Hv).
    unfold insert_analysis_function, place. simpl first_check. simpl default.
    rewrite bool_decide_eq_false_2
      by (rewrite fresh_pkey_fresh; by intros [? ?]).
    assert (collides AnalysisFunction.unique_analysis_function_id_version
              (analysis_function s) r = true) as Hdup.
    { apply collides_true. exists k, r'. split; [done|].
      unfold AnalysisFunction.unique_analysis_function_id_version.
      rewrite bool_decide_eq_true_2 by done. by apply Z.eqb_eq. }
    unfold AnalysisFunction.uniques, first_unique. by rewrite Hdup.
Qed.

Lemma register_unique_version_witness :
  (∃ k, analysis_function demo !! k = None
        ∧ insert_analysis_function None iv_curve_v2 demo
          = (inr k,
             set_analysis_function
               (<[k:=iv_curve_v2]> (analysis_function demo)) demo))
  ∧ insert_analysis_function None iv_curve_again demo
    = (inl (ConstraintViolation "unique_analysis_function_id_version"),
       demo).
Proof.
  destruct (register_unique_version demo iv_curve_v2) as [Hnew _].
  destruct (register_unique_version demo iv_curve_again) as [_ Hold].
  split.
  - apply Hnew.
    apply (bool_decide_unpack
             (map_Forall
                (λ _ r', ¬ (AnalysisFunction.analysis_function_id r'
                            = AnalysisFunction.analysis_function_id
                                iv_curve_v2
                            ∧ AnalysisFunction.version r'
                              = AnalysisFunction.version iv_curve_v2))
                (analysis_function demo))).
    vm_compute. exact I.
  - apply Hold. exists 1, iv_curve. split_and!.
    + vm_compute. reflexivity.
    + reflexivity.
    + reflexivity.
Defined.

(** ** The attributes of a row *)













(** ** The device of a measurement *)

(** C9, at the failing input. The column [device_pkey] of [device_data] is
    declared nullable although its annotation is [int] (that of [die_pkey]
    is [Optional[int]]), and a measurement that names no device is accepted
    by the empty store. *)
Lemma device_data_without_device :
  annotation_optional DeviceData.device_pkey_field = false
  ∧ annotation_optional DeviceData.die_pkey_field = true
  ∧ column_nullable DeviceData.device_pkey_field = true
  ∧ DeviceData.device_pkey orphan_data = None
  ∧ insert_device_data None orphan_data empty_store
    = (inr 1,
       set_device_data {[1 := orphan_data]} empty_store).
Proof. split_and!; vm_compute; reflexivity. Qed.

(** ** [analysis_id] *)

Lemma str_Some n : str (Some n) = pretty n.
Proof. done. Qed.

(** On a row with exactly one target column set to a key other than 0,
    and whose function is stored, [analysis_id] is the function's id, the
    word ["on"], the label of the column and the key. *)
Lemma analysis_id_nonzero s a f :
  exactly_one_target a →
  (∀ k, k ∈ [Analysis.device_data_pkey a; Analysis.die_pkey a;
             Analysis.wafer_pkey a] → k ≠ Some 0) →
  analysis_function s !! Analysis.analysis_function_pkey a = Some f →
  ∃ label k,
    analysis_id s a
    = inr (AnalysisFunction.analysis_function_id f +:+ " on " +:+ label
           +:+ " #" +:+ pretty k)
    ∧ ((label = "Device Data" ∧ Analysis.device_data_pkey a = Some k)
       ∨ (label = "Die" ∧ Analysis.die_pkey a = Some k)
       ∨ (label = "Wafer" ∧ Analysis.wafer_pkey a = Some k)).
Proof.
  intros Hx Hnz Hf. unfold analysis_id. rewrite Hf.
  assert (∀ k, Some k ∈ [Analysis.device_data_pkey a; Analysis.die_pkey a;
                          Analysis.wafer_pkey a] → (k =? 0) = false) as Hk.
  { intros k Hin. apply Z.eqb_neq. intros ->. by apply (Hnz _ Hin). }
  destruct Hx as [([k E1] & E2 & E3)|[(E1 & [k E2] & E3)|(E1 & E2 & [k E3])]];
    rewrite E1, E2, E3 in *; simpl;
    repeat (rewrite filter_cons; simpl; rewrite ?(Hk k) by set_solver; simpl).
  - exists "Device Data", k. split; [done|by left].
  - exists "Die", k. split; [done|right; by left].
  - exists "Wafer", k. split; [done|right; by right].
Qed.

Lemma analysis_id_nonzero_witness :
  ∃ label k,
    analysis_id demo (analysis_on (Some 1) None None 1)
    = inr (AnalysisFunction.analysis_function_id iv_curve +:+ " on "
           +:+ label +:+ " #" +:+ pretty k)
    ∧ ((label = "Device Data"
        ∧ Analysis.device_data_pkey (analysis_on (Some 1) None None 1)
          = Some k)
       ∨ (label = "Die"
          ∧ Analysis.die_pkey (analysis_on (Some 1) None None 1) = Some k)
       ∨ (label = "Wafer"
          ∧ Analysis.wafer_pkey (analysis_on (Some 1) None None 1)
            = Some k)).
Proof.
  apply (analysis_id_nonzero demo (analysis_on (Some 1) None None 1)
           iv_curve).
  - left. split_and!; [by eexists|done|done].
  - intros k Hk ->. simpl in Hk.
    repeat (apply elem_of_cons in Hk as [Hk|Hk]; [discriminate Hk|]).
    by apply elem_of_nil in Hk.
  - vm_compute. reflexivity.
Defined.

(** C7, at the failing input. The die created with key 0 is stored, the
    analysis row that references it is accepted and has exactly one target
    column set, and [analysis_id] raises [IndexError] on it where the label
    would be ["die_yield on Die #0"]: the comprehension keeps the columns
    that are true for Python, and 0 is not. *)
Lemma analysis_id_die_zero :
  reachable temp_fingerprint with_die_analysis
  ∧ is_Some (die with_die_analysis !! 0)
  ∧ analysis with_die_analysis !! 1
    = Some (analysis_on None (Some 0) None 2)
  ∧ exactly_one_target (analysis_on None (Some 0) None 2)
  ∧ analysis_id with_die_analysis (analysis_on None (Some 0) None 2)
    = inl IndexError.
Proof.
  split_and!.
  - exists (setup ++ [CreateAnalysis None (analysis_on None (Some 0) None 2)]).
    rewrite run_app. unfold with_die_analysis, demo. reflexivity.
  - vm_compute. by eexists.
  - vm_compute. reflexivity.
  - right. left. split_and!; [done|by eexists|done].
  - vm_compute. reflexivity.
Qed.

(** C10, at the failing input. With the three columns null the property
    raises [IndexError]; it also does with the single column set to 0,
    although the XOR check holds for that row; and the entry it selects is
    the first one that is true for Python, which skips a non-null 0. *)
Lemma analysis_id_partial :
  analysis_id demo (analysis_on None None None 1) = inl IndexError
  ∧ Analysis.analysis_pkeys_xor_constraint (analysis_on None None (Some 0) 1)
    = true
  ∧ analysis_id demo (analysis_on None None (Some 0) 1) = inl IndexError
  ∧ analysis_id demo (analysis_on (Some 0) (Some 7) None 1)
    = inr "iv_curve on Die #7"
  ∧ analysis_id demo (analysis_on (Some 1) None None 1)
    = inr "iv_curve on Device Data #1".
Proof. split_and!; vm_compute; reflexivity. Qed.

(** ** Further properties of the device table *)

(** In every reachable store the parent cell of a device is not its owning
    cell. *)
Lemma device_parent_is_not_owner fingerprint s k d p :
  reachable fingerprint s →
  device s !! k = Some d →
  Device.parent_cell_pkey d = Some p →
  p ≠ Device.cell_pkey d.
Proof.
  intros Hs Hk Hp.
  destruct (reachable_checked _ _ Hs) as [Hd _].
  assert (Device.unique_device_cell_references d = true) as Hc.
  { apply (Hd k d Hk "unique_device_cell_references"). by left. }
  unfold Device.unique_device_cell_references in Hc. rewrite Hp in Hc.
  simpl in Hc. by apply negb_true_iff, Z.eqb_neq in Hc.
Qed.

Lemma device_parent_is_not_owner_witness :
  1 ≠ Device.cell_pkey inst0.
Proof.
  apply (device_parent_is_not_owner temp_fingerprint demo 1 inst0 1).
  - exists setup. unfold demo. reflexivity.
  - vm_compute. reflexivity.
  - reflexivity.
Defined.

(** * Further properties *)

(** ** Selections and pruned tables *)

Lemma elem_of_selected {A} (P : A → bool) (t : gmap Z A) k :
  k ∈ selected P t ↔ ∃ r, t !! k = Some r ∧ P r = true.
Proof.
  unfold selected. rewrite elem_of_dom. unfold is_Some.
  by setoid_rewrite map_lookup_filter_Some.
Qed.

Lemma lookup_without {A} (g : gset Z) (t : gmap Z A) k r :
  without g t !! k = Some r ↔ t !! k = Some r ∧ k ∉ g.
Proof. unfold without. by rewrite map_lookup_filter_Some. Qed.

Lemma without_subseteq {A} (g : gset Z) (t : gmap Z A) : without g t ⊆ t.
Proof. apply map_filter_subseteq. Qed.

Lemma refers_true ref g : refers ref g = true ↔ ∃ k, ref = Some k ∧ k ∈ g.
Proof.
  destruct ref as [k|]; simpl.
  - rewrite bool_decide_eq_true. split; [by eauto|]. by intros (? & [= <-] & ?).
  - split; [done|]. by intros (? & ? & ?).
Qed.

Lemma references_true {B} (t : gmap Z B) ref :
  references t ref = true ↔ ∀ k, ref = Some k → is_Some (t !! k).
Proof.
  destruct ref as [k|]; simpl.
  - rewrite bool_decide_eq_true. split; [by intros ? ? [= <-]|by eauto].
  - split; [done|]. by intros _.
Qed.

(** ** Unique indexes *)

Lemma Qeq_bool_sym x y : Qeq_bool x y = Qeq_bool y x.
Proof.
  apply eq_true_iff_eq. rewrite !Qeq_bool_iff. split; apply Qeq_sym.
Qed.

Lemma bool_eqb_sym (a b : bool) : Bool.eqb a b = Bool.eqb b a.
Proof. by destruct a, b. Qed.

Lemma sql_eq_sym {A} (eqb : A → A → bool) a b :
  (∀ u v, eqb u v = eqb v u) → Sql.eq eqb a b = Sql.eq eqb b a.
Proof. intros H. destruct a, b; simpl; by rewrite ?(H a). Qed.

Lemma bool_decide_eq_sym {A} `{EqDecision A} (a b : A) :
  bool_decide (a = b) = bool_decide (b = a).
Proof. by apply bool_decide_ext. Qed.

Lemma project_uniques_sym n dup :
  (n, dup) ∈ Project.uniques → ∀ a b, dup a b = dup b a.
Proof.
  intros [[= -> ->]|H]%elem_of_cons; [|by apply elem_of_nil in H].
  intros a b. apply bool_decide_eq_sym.
Qed.

Lemma cell_uniques_sym n dup :
  (n, dup) ∈ Cell.uniques → ∀ a b, dup a b = dup b a.
Proof.
  intros [[= -> ->]|H]%elem_of_cons; [|by apply elem_of_nil in H].
  intros a b. by rewrite Z.eqb_sym, bool_decide_eq_sym.
Qed.

Lemma device_uniques_sym n dup :
  (n, dup) ∈ Device.uniques → ∀ a b, dup a b = dup b a.
Proof.
  intros [[= -> ->]|H]%elem_of_cons.
  { intros a b. unfold Device.unique_coord_cells_on_device.
    rewrite (sql_eq_sym Qeq_bool (Device.x a) (Device.x b) Qeq_bool_sym).
    rewrite (sql_eq_sym Qeq_bool (Device.y a) (Device.y b) Qeq_bool_sym).
    rewrite (sql_eq_sym Qeq_bool (Device.angle a) (Device.angle b)
               Qeq_bool_sym).
    rewrite (sql_eq_sym Bool.eqb (Device.mirror a) (Device.mirror b)
               bool_eqb_sym).
    rewrite (sql_eq_sym Z.eqb (Device.parent_cell_pkey a)
               (Device.parent_cell_pkey b) Z.eqb_sym).
    by rewrite (Z.eqb_sym (Device.cell_pkey a)). }
  apply elem_of_cons in H as [[= -> ->]|H]; [|by apply elem_of_nil in H].
  intros a b. unfold Device.unique_device_ids_per_cell.
  by rewrite Z.eqb_sym, bool_decide_eq_sym.
Qed.

Lemma wafer_uniques_sym n dup :
  (n, dup) ∈ Wafer.uniques → ∀ a b, dup a b = dup b a.
Proof.
  intros [[= -> ->]|H]%elem_of_cons; [|by apply elem_of_nil in H].
  intros a b. by rewrite Z.eqb_sym, bool_decide_eq_sym.
Qed.

Lemma die_uniques_sym n dup :
  (n, dup) ∈ Die.uniques → ∀ a b, dup a b = dup b a.
Proof.
  intros [[= -> ->]|H]%elem_of_cons; [|by apply elem_of_nil in H].
  intros a b.
  by rewrite (Z.eqb_sym (Die.x a)), (Z.eqb_sym (Die.y a)),
    (Z.eqb_sym (Die.wafer_pkey a)).
Qed.

Lemma analysis_function_uniques_sym n dup :
  (n, dup) ∈ AnalysisFunction.uniques → ∀ a b, dup a b = dup b a.
Proof.
  intros [[= -> ->]|H]%elem_of_cons; [|by apply elem_of_nil in H].
  intros a b. unfold AnalysisFunction.unique_analysis_function_id_version.
  by rewrite Z.eqb_sym, bool_decide_eq_sym.
Qed.

Lemma unique_in_subseteq {A} (dup : A → A → bool) (t t' : gmap Z A) :
  t' ⊆ t → unique_in dup t → unique_in dup t'.
Proof.
  intros Hsub H k1 k2 r1 r2 H1 H2. apply H; by eapply lookup_weaken.
Qed.

Lemma unique_in_insert {A} (dup : A → A → bool) (t : gmap Z A) k row :
  (∀ a b, dup a b = dup b a) →
  collides dup t row = false →
  unique_in dup t → unique_in dup (<[k:=row]> t).
Proof.
  intros Hsym Hc H k1 k2 r1 r2 H1 H2 Hd.
  rewrite collides_false in Hc.
  destruct (decide (k1 = k)) as [->|N1], (decide (k2 = k)) as [->|N2];
    [done| | |].
  - rewrite lookup_insert_eq in H1. rewrite lookup_insert_ne in H2 by done.
    injection H1 as <-. rewrite Hsym, (Hc _ _ H2) in Hd. done.
  - rewrite lookup_insert_ne in H1 by done. rewrite lookup_insert_eq in H2.
    injection H2 as <-. rewrite (Hc _ _ H1) in Hd. done.
  - rewrite lookup_insert_ne in H1 by done.
    rewrite lookup_insert_ne in H2 by done. by eapply H.
Qed.

(** An accepted INSERT keeps the unique indexes of its table. *)
Lemma place_unique_in {A} cs us fks (t : gmap Z A) pkey row k :
  (∀ n dup, (n, dup) ∈ us → ∀ a b, dup a b = dup b a) →
  (∀ n dup, (n, dup) ∈ us → unique_in dup t) →
  place cs us fks t pkey row = inr k →
  ∀ n dup, (n, dup) ∈ us → unique_in dup (<[k:=row]> t).
Proof.
  intros Hsym Hu (_ & _ & _ & Hc & _)%place_inr n dup Hin.
  apply unique_in_insert; eauto.
Qed.

(** ** Invariants of attainable stores *)

(** A property of the empty store that every operation keeps holds in every
    attainable store. *)
Lemma attainable_invariant fingerprint (P : Store → Prop) :
  P empty_store →
  (∀ o s, P s → P (perform fingerprint o s)) →
  ∀ s, attainable fingerprint s → P s.
Proof.
  intros H0 Hstep s [os <-]. unfold history.
  generalize dependent empty_store.
  induction os as [|o os IH]; intros s0 H0; [done|].
  simpl. apply IH. by apply Hstep.
Qed.

(** Every reachable store is attainable. *)
Lemma reachable_attainable fingerprint s :
  reachable fingerprint s → attainable fingerprint s.
Proof.
  intros [cs <-]. exists (Do <$> cs). unfold history, run.
  generalize empty_store. induction cs as [|c cs IH]; intros s0; [done|].
  simpl. apply IH.
Qed.

(** [record_result] writes the [analysis] table only. *)
Lemma record_result_tables fingerprint function target parameters output
    summary_plot now s :
  ∃ t, (record_result fingerprint function target parameters output
          summary_plot now s).2 = set_analysis t s.
Proof.
  destruct (record_result _ _ _ _ _ _ _ s) as [res s'] eqn:E. simpl.
  apply record_result_inv in E
      as [[-> _]|(state & f & k & _ & _ & _ & Hk & E)].
  - exists (analysis s). by destruct s.
  - destruct (latest_analysis function target s) as [[k0 a0]|].
    + destruct E as [_ ->]. by eexists.
    + subst s'. by eexists.
Qed.

Lemma delete_cases e s :
  (session_delete e s).2 = s ∨ (session_delete e s).2 = pruned e s.
Proof.
  unfold session_delete. destruct (stored e s); [by right|by left].
Qed.

Lemma exec_keys_unique fingerprint c s :
  keys_unique s → keys_unique (exec fingerprint c s).
Proof.
  intros (Hp & Hc & Hd & Hw & Hdi & Haf).
  destruct c as [pk r|pk r|pk r|pk r|pk r|pk r|pk r|pk r|
                 function target parameters output sp now]; simpl.
  - unfold insert_project.
    destruct (place _ _ _ _ _ _) eqn:Ep; [by split_and!|].
    split_and!; try done. simpl.
    eapply place_unique_in; eauto using project_uniques_sym.
  - unfold insert_cell.
    destruct (place _ _ _ _ _ _) eqn:Ep; [by split_and!|].
    split_and!; try done. simpl.
    eapply place_unique_in; eauto using cell_uniques_sym.
  - unfold insert_device.
    destruct (place _ _ _ _ _ _) eqn:Ep; [by split_and!|].
    split_and!; try done. simpl.
    eapply place_unique_in; eauto using device_uniques_sym.
  - unfold insert_wafer.
    destruct (place _ _ _ _ _ _) eqn:Ep; [by split_and!|].
    split_and!; try done. simpl.
    eapply place_unique_in; eauto using wafer_uniques_sym.
  - unfold insert_die.
    destruct (place _ _ _ _ _ _) eqn:Ep; [by split_and!|].
    split_and!; try done. simpl.
    eapply place_unique_in; eauto using die_uniques_sym.
  - unfold insert_device_data.
    destruct (place _ _ _ _ _ _) eqn:Ep; by split_and!.
  - unfold insert_analysis_function.
    destruct (place _ _ _ _ _ _) eqn:Ep; [by split_and!|].
    split_and!; try done. simpl.
    eapply place_unique_in; eauto using analysis_function_uniques_sym.
  - unfold insert_analysis.
    destruct (place _ _ _ _ _ _) eqn:Ep; by split_and!.
  - destruct (record_result_tables fingerprint function target parameters
                output sp now s) as [t ->].
    by split_and!.
Qed.

Lemma perform_keys_unique fingerprint o s :
  keys_unique s → keys_unique (perform fingerprint o s).
Proof.
  destruct o as [c|e]; simpl; [apply exec_keys_unique|].
  intros Hu. destruct (delete_cases e s) as [->| ->]; [done|].
  destruct Hu as (Hp & Hc & Hd & Hw & Hdi & Haf).
  split_and!; simpl; intros n dup Hin;
    (eapply unique_in_subseteq; [apply without_subseteq|eauto]).
Qed.

Lemma empty_store_keys_unique : keys_unique empty_store.
Proof.
  split_and!; intros n dup _ k1 k2 r1 r2 H; simpl in H;
    by rewrite lookup_empty in H.
Qed.

Lemma attainable_keys_unique fingerprint s :
  attainable fingerprint s → keys_unique s.
Proof.
  apply attainable_invariant;
    [apply empty_store_keys_unique|apply perform_keys_unique].
Qed.

Lemma perform_checked fingerprint o s :
  checked s → checked (perform fingerprint o s).
Proof.
  destruct o as [c|e]; simpl; [apply exec_checked|].
  intros [Hd Ha]. destruct (delete_cases e s) as [->| ->]; [done|].
  split; simpl; intros k r [Hk _]%lookup_without; eauto.
Qed.

Lemma attainable_checked fingerprint s : attainable fingerprint s → checked s.
Proof.
  apply attainable_invariant;
    [apply empty_store_checked|apply perform_checked].
Qed.

Lemma demo_attainable : attainable temp_fingerprint demo.
Proof. apply reachable_attainable. exists setup. unfold demo. reflexivity. Qed.

(** Names are unique within their scope in every attainable store: a
    project by its [project_id]; a cell by its [cell_id] within its project;
    a device by its [device_id] within its owning cell; a wafer by its
    [wafer_id] within its project. *)
Theorem names_unique fingerprint s :
  attainable fingerprint s →
  (∀ k1 k2 a b,
     project s !! k1 = Some a → project s !! k2 = Some b →
     Project.project_id a = Project.project_id b → k1 = k2)
  ∧ (∀ k1 k2 a b,
       cell s !! k1 = Some a → cell s !! k2 = Some b →
       Cell.project_pkey a = Cell.project_pkey b →
       Cell.cell_id a = Cell.cell_id b → k1 = k2)
  ∧ (∀ k1 k2 a b,
       device s !! k1 = Some a → device s !! k2 = Some b →
       Device.cell_pkey a = Device.cell_pkey b →
       Device.device_id a = Device.device_id b → k1 = k2)
  ∧ (∀ k1 k2 a b,
       wafer s !! k1 = Some a → wafer s !! k2 = Some b →
       Wafer.project_pkey a = Wafer.project_pkey b →
       Wafer.wafer_id a = Wafer.wafer_id b → k1 = k2).
Proof.
  intros (Hp & Hc & Hd & Hw & _ & _)%attainable_keys_unique.
  split_and!.
  - intros k1 k2 a b H1 H2 Hid.
    eapply (Hp "ix_project_project_id"); [by left|done|done|].
    by apply bool_decide_eq_true_2.
  - intros k1 k2 a b H1 H2 Hpk Hid.
    eapply (Hc "unique_id_and_project_on_cell"); [by left|done|done|].
    simpl. rewrite Hpk, Z.eqb_refl. by apply bool_decide_eq_true_2.
  - intros k1 k2 a b H1 H2 Hpk Hid.
    eapply (Hd "unique_device_ids_per_cell"); [right; by left|done|done|].
    unfold Device.unique_device_ids_per_cell.
    rewrite Hpk, Z.eqb_refl. by apply bool_decide_eq_true_2.
  - intros k1 k2 a b H1 H2 Hpk Hid.
    eapply (Hw "unique_wafer_id_per_project"); [by left|done|done|].
    simpl. rewrite Hpk, Z.eqb_refl. by apply bool_decide_eq_true_2.
Qed.

Lemma names_unique_witness :
  (∀ k1 k2 a b,
     project demo !! k1 = Some a → project demo !! k2 = Some b →
     Project.project_id a = Project.project_id b → k1 = k2)
  ∧ (∀ k1 k2 a b,
       cell demo !! k1 = Some a → cell demo !! k2 = Some b →
       Cell.project_pkey a = Cell.project_pkey b →
       Cell.cell_id a = Cell.cell_id b → k1 = k2)
  ∧ (∀ k1 k2 a b,
       device demo !! k1 = Some a → device demo !! k2 = Some b →
       Device.cell_pkey a = Device.cell_pkey b →
       Device.device_id a = Device.device_id b → k1 = k2)
  ∧ (∀ k1 k2 a b,
       wafer demo !! k1 = Some a → wafer demo !! k2 = Some b →
       Wafer.project_pkey a = Wafer.project_pkey b →
       Wafer.wafer_id a = Wafer.wafer_id b → k1 = k2).
Proof. apply (names_unique temp_fingerprint demo), demo_attainable. Defined.

(** In every attainable store a die is determined by its coordinates on
    its wafer, a version of an analysis function by its
    [(analysis_function_id, version)], and a placed device by its placement
    [(parent_cell_pkey, cell_pkey, x, y, angle, mirror)]. *)
Theorem coordinates_unique fingerprint s :
  attainable fingerprint s →
  (∀ k1 k2 a b,
     die s !! k1 = Some a → die s !! k2 = Some b →
     Die.x a = Die.x b → Die.y a = Die.y b →
     Die.wafer_pkey a = Die.wafer_pkey b → k1 = k2)
  ∧ (∀ k1 k2 a b,
       analysis_function s !! k1 = Some a →
       analysis_function s !! k2 = Some b →
       AnalysisFunction.analysis_function_id a
       = AnalysisFunction.analysis_function_id b →
       AnalysisFunction.version a = AnalysisFunction.version b → k1 = k2)
  ∧ (∀ k1 k2 a b,
       device s !! k1 = Some a → device s !! k2 = Some b →
       is_Some (Device.parent_cell_pkey a) →
       placement b = placement a → k1 = k2).
Proof.
  intros Hs. pose proof (attainable_checked _ _ Hs) as [Hchk _].
  apply attainable_keys_unique in Hs as (_ & _ & Hd & _ & Hdi & Haf).
  split_and!.
  - intros k1 k2 a b H1 H2 Hx Hy Hw.
    eapply (Hdi "unique_wafer_die"); [by left|done|done|].
    simpl. by rewrite Hx, Hy, Hw, !Z.eqb_refl.
  - intros k1 k2 a b H1 H2 Hid Hv.
    eapply (Haf "unique_analysis_function_id_version");
      [by left|done|done|].
    unfold AnalysisFunction.unique_analysis_function_id_version.
    rewrite Hv, Z.eqb_refl. by rewrite bool_decide_eq_true_2.
  - intros k1 k2 a b H1 H2 Hp Hpl.
    eapply (Hd "unique_coord_cells_on_device"); [by left|done|done|].
    assert (Device.parent_cell_coordinate_reference_not_null a = true) as Hc.
    { apply (Hchk k1 a H1 "parent_cell_coordinate_reference_not_null").
      right. by left. }
    apply placement_check in Hc as [(Hn & _)|(_ & Hx & Hy & Ha & Hm)].
    { rewrite Hn in Hp. by destruct Hp. }
    by apply same_placement_duplicate.
Qed.

Lemma coordinates_unique_witness :
  (∀ k1 k2 a b,
     die demo !! k1 = Some a → die demo !! k2 = Some b →
     Die.x a = Die.x b → Die.y a = Die.y b →
     Die.wafer_pkey a = Die.wafer_pkey b → k1 = k2)
  ∧ (∀ k1 k2 a b,
       analysis_function demo !! k1 = Some a →
       analysis_function demo !! k2 = Some b →
       AnalysisFunction.analysis_function_id a
       = AnalysisFunction.analysis_function_id b →
       AnalysisFunction.version a = AnalysisFunction.version b → k1 = k2)
  ∧ (∀ k1 k2 a b,
       device demo !! k1 = Some a → device demo !! k2 = Some b →
       is_Some (Device.parent_cell_pkey a) →
       placement b = placement a → k1 = k2).
Proof.
  apply (coordinates_unique temp_fingerprint demo), demo_attainable.
Defined.

(** ** What a deletion leaves behind *)

Lemma references_without {B} (t : gmap Z B) g ref :
  references t ref = true → (∀ j, ref = Some j → j ∉ g) →
  references (without g t) ref = true.
Proof.
  rewrite !references_true. intros H Hg j Hj.
  destruct (H j Hj) as [x Hx]. exists x. apply lookup_without. eauto.
Qed.

(** A row whose parent along a cascade is removed is removed. *)
Ltac gone_child Hin :=
  lazymatch goal with |- _ ∈ ?gone _ _ => unfold gone at 1 end;
  apply elem_of_union_r, elem_of_selected; eexists;
  split; [eassumption|]; cbn beta;
  repeat match goal with
         | H : ?ref = Some _ |- context [refers ?ref _] => rewrite H
         end;
  cbn [refers]; rewrite (bool_decide_eq_true_2 _ Hin);
  by rewrite ?orb_true_r.

(** The cascades leave no row behind that names a removed row. *)
Lemma pruned_owned e s : owned s → owned (pruned e s).
Proof.
  intros (Hc & Hd & Hw & Hdi & Hdd & Ha).
  split_and!; tables; intros k r [Hk Hng]%lookup_without.
  - apply references_without; [eauto|]. intros j [= <-] Hin.
    apply Hng. gone_child Hin.
  - apply references_without; [eauto|]. intros j [= <-] Hin.
    apply Hng. gone_child Hin.
  - apply references_without; [eauto|]. intros j [= <-] Hin.
    apply Hng. gone_child Hin.
  - apply references_without; [eauto|]. intros j [= <-] Hin.
    apply Hng. gone_child Hin.
  - destruct (Hdd k r Hk) as [H1 H2]. split.
    + apply references_without; [done|]. intros j Hj Hin.
      apply Hng. gone_child Hin.
    + apply references_without; [done|]. intros j Hj Hin.
      apply Hng. gone_child Hin.
  - destruct (Ha k r Hk) as (H1 & H2 & H3 & H4). split_and!.
    + apply references_without; [done|]. intros j Hj Hin.
      apply Hng. gone_child Hin.
    + apply references_without; [done|]. intros j Hj Hin.
      apply Hng. gone_child Hin.
    + apply references_without; [done|]. intros j Hj Hin.
      apply Hng. gone_child Hin.
    + apply references_without; [done|]. intros j [= <-] Hin.
      apply Hng. gone_child Hin.
Qed.

(** The deletion of a stored entity goes through. *)
Lemma session_delete_stored e s :
  stored e s = true → session_delete e s = (inr tt, pruned e s).
Proof. unfold session_delete. by intros ->. Qed.

(** Deleting any stored entity from a store in which every reference
    resolves goes through and leaves no orphan along the relationships:
    every row that named a removed row was removed with it.  The one
    reference that can be left dangling is the parent cell of a device that
    stays: it names no stored cell exactly when that cell was removed. *)
Theorem cascades_leave_no_orphan e s :
  owned s → placed s → stored e s = true →
  session_delete e s = (inr tt, pruned e s)
  ∧ owned (pruned e s)
  ∧ ∀ k d, device (pruned e s) !! k = Some d →
           references (cell (pruned e s)) (Device.parent_cell_pkey d)
           = negb (refers (Device.parent_cell_pkey d) (gone_cell e s)).
Proof.
  intros Ho Hp Hst. split_and!.
  - by apply session_delete_stored.
  - by apply pruned_owned.
  - tables. intros k d [Hk Hng]%lookup_without.
    specialize (Hp k d Hk).
    destruct (Device.parent_cell_pkey d) as [p|]; simpl; [|done].
    simpl in Hp. apply bool_decide_eq_true in Hp as [x Hx].
    destruct (decide (p ∈ gone_cell e s)) as [Hin|Hin].
    + rewrite (bool_decide_eq_true_2 _ Hin). simpl.
      apply bool_decide_eq_false_2. intros [y Hy].
      by apply lookup_without in Hy as [_ ?].
    + rewrite (bool_decide_eq_false_2 _ Hin). simpl.
      apply bool_decide_eq_true_2. exists x. by apply lookup_without.
Qed.

Lemma demo_owned : owned demo.
Proof.
  split_and!.
  - apply (bool_decide_unpack
             (map_Forall
                (λ _ r, references (project demo)
                          (Some (Cell.project_pkey r)) = true)
                (cell demo))).
    vm_compute. exact I.
  - apply (bool_decide_unpack
             (map_Forall
                (λ _ r, references (cell demo)
                          (Some (Device.cell_pkey r)) = true)
                (device demo))).
    vm_compute. exact I.
  - apply (bool_decide_unpack
             (map_Forall
                (λ _ r, references (project demo)
                          (Some (Wafer.project_pkey r)) = true)
                (wafer demo))).
    vm_compute. exact I.
  - apply (bool_decide_unpack
             (map_Forall
                (λ _ r, references (wafer demo)
                          (Some (Die.wafer_pkey r)) = true)
                (die demo))).
    vm_compute. exact I.
  - apply (bool_decide_unpack
             (map_Forall
                (λ _ r, references (device demo) (DeviceData.device_pkey r)
                        = true
                        ∧ references (die demo) (DeviceData.die_pkey r)
                          = true)
                (device_data demo))).
    vm_compute. exact I.
  - assert (analysis demo = ∅) as -> by (vm_compute; reflexivity).
    intros k r H. by rewrite lookup_empty in H.
Qed.

Lemma demo_placed : placed demo.
Proof.
  apply (bool_decide_unpack
           (map_Forall
              (λ _ r, references (cell demo) (Device.parent_cell_pkey r)
                      = true)
              (device demo))).
  vm_compute. exact I.
Qed.

Lemma cascades_leave_no_orphan_witness :
  (session_delete (TheCell 1) demo = (inr tt, pruned (TheCell 1) demo)
   ∧ owned (pruned (TheCell 1) demo)
   ∧ ∀ k d, device (pruned (TheCell 1) demo) !! k = Some d →
            references (cell (pruned (TheCell 1) demo))
              (Device.parent_cell_pkey d)
            = negb (refers (Device.parent_cell_pkey d)
                      (gone_cell (TheCell 1) demo)))
  ∧ device (pruned (TheCell 1) demo) !! 1 = Some inst0
  ∧ cell (pruned (TheCell 1) demo) !! 1 = None.
Proof.
  split.
  - apply (cascades_leave_no_orphan (TheCell 1) demo).
    + apply demo_owned.
    + apply demo_placed.
    + vm_compute. reflexivity.
  - split; vm_compute; reflexivity.
Defined.

(** ** Deleting *)

Lemma selected_false {A} (P : A → bool) (t : gmap Z A) :
  (∀ r, P r = false) → selected P t = ∅.
Proof.
  intros H. apply set_eq. intros k. rewrite elem_of_selected.
  split; [|by intros ?%not_elem_of_empty].
  intros (r & _ & Hr). by rewrite H in Hr.
Qed.

Lemma refers_empty ref : refers ref ∅ = false.
Proof.
  destruct ref; simpl; [|done]. apply bool_decide_eq_false_2.
  apply not_elem_of_empty.
Qed.

Lemma without_empty {A} (t : gmap Z A) : without ∅ t = t.
Proof.
  apply map_eq. intros k. apply option_eq. intros r.
  rewrite lookup_without. split; [by intros [? _]|].
  intros H. split; [done|apply not_elem_of_empty].
Qed.

Lemma without_singleton {A} (t : gmap Z A) k :
  without {[k]} t = delete k t.
Proof.
  apply map_eq. intros j. apply option_eq. intros r.
  rewrite lookup_without, lookup_delete_Some, not_elem_of_singleton.
  split; intros [? ?]; split; done || congruence.
Qed.

Lemma gone_cell_of_cell c s : gone_cell (TheCell c) s = {[c]}.
Proof.
  unfold gone_cell. simpl. rewrite selected_false; [apply union_empty_r_L|].
  intros r. apply bool_decide_eq_false_2, not_elem_of_empty.
Qed.

Lemma gone_device_of_cell c s k :
  k ∈ gone_device (TheCell c) s ↔
  ∃ d, device s !! k = Some d ∧ Device.cell_pkey d = c.
Proof.
  unfold gone_device. rewrite union_empty_l_L, elem_of_selected.
  setoid_rewrite bool_decide_eq_true. rewrite gone_cell_of_cell.
  by setoid_rewrite elem_of_singleton.
Qed.

(** Deleting a stored cell always goes through: the cell goes, and with it
    exactly the devices it owns.  A device of another cell that is placed
    in the deleted cell stays, and its [parent_cell_pkey] names a cell that
    is no longer stored. *)
Theorem delete_cell_cascade s c :
  is_Some (cell s !! c) →
  session_delete (TheCell c) s = (inr tt, pruned (TheCell c) s)
  ∧ cell (pruned (TheCell c) s) = delete c (cell s)
  ∧ (∀ k d, device (pruned (TheCell c) s) !! k = Some d ↔
            device s !! k = Some d ∧ Device.cell_pkey d ≠ c)
  ∧ (∀ k d, device s !! k = Some d → Device.cell_pkey d ≠ c →
            Device.parent_cell_pkey d = Some c →
            device (pruned (TheCell c) s) !! k = Some d
            ∧ references (cell (pruned (TheCell c) s))
                (Device.parent_cell_pkey d) = false).
Proof.
  intros Hc.
  assert (∀ k d, device (pruned (TheCell c) s) !! k = Some d ↔
                 device s !! k = Some d ∧ Device.cell_pkey d ≠ c) as Hdev.
  { intros k d. tables. rewrite lookup_without, gone_device_of_cell.
    split; intros [Hk Hn]; (split; [done|]).
    - intros <-. apply Hn. eauto.
    - intros (d' & Hk' & <-). congruence. }
  split_and!.
  - apply session_delete_stored. by apply bool_decide_eq_true_2.
  - tables. by rewrite gone_cell_of_cell, without_singleton.
  - done.
  - intros k d Hk Hown Hpar. split; [by apply Hdev|].
    rewrite Hpar. tables. rewrite gone_cell_of_cell, without_singleton.
    simpl. apply bool_decide_eq_false_2. rewrite lookup_delete_eq.
    by intros [? ?].
Qed.

Lemma delete_cell_cascade_witness :
  session_delete (TheCell 1) demo = (inr tt, pruned (TheCell 1) demo)
  ∧ cell (pruned (TheCell 1) demo) = delete 1 (cell demo)
  ∧ (∀ k d, device (pruned (TheCell 1) demo) !! k = Some d ↔
            device demo !! k = Some d ∧ Device.cell_pkey d ≠ 1)
  ∧ (∀ k d, device demo !! k = Some d → Device.cell_pkey d ≠ 1 →
            Device.parent_cell_pkey d = Some 1 →
            device (pruned (TheCell 1) demo) !! k = Some d
            ∧ references (cell (pruned (TheCell 1) demo))
                (Device.parent_cell_pkey d) = false).
Proof.
  apply (delete_cell_cascade demo 1). vm_compute. by eexists.
Defined.

Lemma gone_cell_of_project p s k :
  k ∈ gone_cell (TheProject p) s ↔
  ∃ c, cell s !! k = Some c ∧ Cell.project_pkey c = p.
Proof.
  unfold gone_cell. rewrite union_empty_l_L, elem_of_selected.
  setoid_rewrite bool_decide_eq_true.
  by setoid_rewrite elem_of_singleton.
Qed.

Lemma gone_wafer_of_project p s k :
  k ∈ gone_wafer (TheProject p) s ↔
  ∃ w, wafer s !! k = Some w ∧ Wafer.project_pkey w = p.
Proof.
  unfold gone_wafer. rewrite union_empty_l_L, elem_of_selected.
  setoid_rewrite bool_decide_eq_true.
  by setoid_rewrite elem_of_singleton.
Qed.

(** Deleting a stored project always goes through: it removes the project,
    the cells and wafers of the project, the devices of those cells and the
    dies of those wafers, and nothing else of these tables; the analysis
    functions are untouched. *)
Theorem delete_project_descendants s p :
  is_Some (project s !! p) →
  session_delete (TheProject p) s = (inr tt, pruned (TheProject p) s)
  ∧ project (pruned (TheProject p) s) = delete p (project s)
  ∧ (∀ k r, cell (pruned (TheProject p) s) !! k = Some r ↔
            cell s !! k = Some r ∧ Cell.project_pkey r ≠ p)
  ∧ (∀ k r, wafer (pruned (TheProject p) s) !! k = Some r ↔
            wafer s !! k = Some r ∧ Wafer.project_pkey r ≠ p)
  ∧ (∀ k r, device (pruned (TheProject p) s) !! k = Some r ↔
            device s !! k = Some r
            ∧ ∀ c, cell s !! Device.cell_pkey r = Some c →
                   Cell.project_pkey c ≠ p)
  ∧ (∀ k r, die (pruned (TheProject p) s) !! k = Some r ↔
            die s !! k = Some r
            ∧ ∀ w, wafer s !! Die.wafer_pkey r = Some w →
                   Wafer.project_pkey w ≠ p)
  ∧ analysis_function (pruned (TheProject p) s) = analysis_function s.
Proof.
  intros Hp.
  split_and!; tables.
  - apply session_delete_stored. by apply bool_decide_eq_true_2.
  - apply without_singleton.
  - intros k r. rewrite lookup_without, gone_cell_of_project.
    split; intros [Hk Hn]; (split; [done|]).
    + intros <-. apply Hn. eauto.
    + intros (c & Hc & <-). congruence.
  - intros k r. rewrite lookup_without, gone_wafer_of_project.
    split; intros [Hk Hn]; (split; [done|]).
    + intros <-. apply Hn. eauto.
    + intros (c & Hc & <-). congruence.
  - intros k r. rewrite lookup_without. unfold gone_device.
    rewrite union_empty_l_L, elem_of_selected.
    setoid_rewrite bool_decide_eq_true.
    setoid_rewrite gone_cell_of_project.
    split; intros [Hk Hn]; (split; [done|]).
    + intros c Hc <-. apply Hn. eauto.
    + intros (r' & Hk' & c & Hc & Hpc).
      assert (r' = r) as -> by congruence. by eapply Hn.
  - intros k r. rewrite lookup_without. unfold gone_die.
    rewrite union_empty_l_L, elem_of_selected.
    setoid_rewrite bool_decide_eq_true.
    setoid_rewrite gone_wafer_of_project.
    split; intros [Hk Hn]; (split; [done|]).
    + intros c Hc <-. apply Hn. eauto.
    + intros (r' & Hk' & c & Hc & Hpc).
      assert (r' = r) as -> by congruence. by eapply Hn.
  - apply without_empty.
Qed.

Lemma delete_project_descendants_witness :
  session_delete (TheProject 1) demo = (inr tt, pruned (TheProject 1) demo)
  ∧ project (pruned (TheProject 1) demo) = delete 1 (project demo)
  ∧ (∀ k r, cell (pruned (TheProject 1) demo) !! k = Some r ↔
            cell demo !! k = Some r ∧ Cell.project_pkey r ≠ 1)
  ∧ (∀ k r, wafer (pruned (TheProject 1) demo) !! k = Some r ↔
            wafer demo !! k = Some r ∧ Wafer.project_pkey r ≠ 1)
  ∧ (∀ k r, device (pruned (TheProject 1) demo) !! k = Some r ↔
            device demo !! k = Some r
            ∧ ∀ c, cell demo !! Device.cell_pkey r = Some c →
                   Cell.project_pkey c ≠ 1)
  ∧ (∀ k r, die (pruned (TheProject 1) demo) !! k = Some r ↔
            die demo !! k = Some r
            ∧ ∀ w, wafer demo !! Die.wafer_pkey r = Some w →
                   Wafer.project_pkey w ≠ 1)
  ∧ analysis_function (pruned (TheProject 1) demo) = analysis_function demo.
Proof.
  apply (delete_project_descendants demo 1). vm_compute. by eexists.
Defined.

(** Deleting a stored analysis function always goes through: it removes the
    function and exactly the analyses computed by it, and leaves every other
    table as it was. *)
Theorem delete_analysis_function_cascade s f :
  is_Some (analysis_function s !! f) →
  session_delete (TheAnalysisFunction f) s
  = (inr tt, pruned (TheAnalysisFunction f) s)
  ∧ analysis_function (pruned (TheAnalysisFunction f) s)
    = delete f (analysis_function s)
  ∧ (∀ k a, analysis (pruned (TheAnalysisFunction f) s) !! k = Some a ↔
            analysis s !! k = Some a
            ∧ Analysis.analysis_function_pkey a ≠ f)
  ∧ project (pruned (TheAnalysisFunction f) s) = project s
  ∧ cell (pruned (TheAnalysisFunction f) s) = cell s
  ∧ device (pruned (TheAnalysisFunction f) s) = device s
  ∧ wafer (pruned (TheAnalysisFunction f) s) = wafer s
  ∧ die (pruned (TheAnalysisFunction f) s) = die s
  ∧ device_data (pruned (TheAnalysisFunction f) s) = device_data s.
Proof.
  intros Hf.
  assert (gone_cell (TheAnalysisFunction f) s = ∅) as Hc.
  { unfold gone_cell. rewrite union_empty_l_L. apply selected_false.
    intros r. apply bool_decide_eq_false_2, not_elem_of_empty. }
  assert (gone_wafer (TheAnalysisFunction f) s = ∅) as Hw.
  { unfold gone_wafer. rewrite union_empty_l_L. apply selected_false.
    intros r. apply bool_decide_eq_false_2, not_elem_of_empty. }
  assert (gone_device (TheAnalysisFunction f) s = ∅) as Hd.
  { unfold gone_device. rewrite union_empty_l_L, Hc. apply selected_false.
    intros r. apply bool_decide_eq_false_2, not_elem_of_empty. }
  assert (gone_die (TheAnalysisFunction f) s = ∅) as Hdi.
  { unfold gone_die. rewrite union_empty_l_L, Hw. apply selected_false.
    intros r. apply bool_decide_eq_false_2, not_elem_of_empty. }
  assert (gone_device_data (TheAnalysisFunction f) s = ∅) as Hdd.
  { unfold gone_device_data. rewrite union_empty_l_L, Hd, Hdi.
    apply selected_false. intros r. by rewrite !refers_empty. }
  split_and!; tables; rewrite ?Hc, ?Hw, ?Hd, ?Hdi, ?Hdd;
    try apply without_empty.
  - apply session_delete_stored. by apply bool_decide_eq_true_2.
  - apply without_singleton.
  - intros k a. rewrite lookup_without. unfold gone_analysis.
    rewrite union_empty_l_L, Hdd, Hdi, Hw, elem_of_selected.
    setoid_rewrite refers_empty. simpl.
    setoid_rewrite bool_decide_eq_true.
    setoid_rewrite elem_of_singleton.
    split; intros [Hk Hn]; (split; [done|]).
    + intros <-. apply Hn. eauto.
    + intros (a' & Hk' & <-). congruence.
Qed.

Lemma delete_analysis_function_cascade_witness :
  session_delete (TheAnalysisFunction 2) with_die_analysis
  = (inr tt, pruned (TheAnalysisFunction 2) with_die_analysis)
  ∧ analysis_function (pruned (TheAnalysisFunction 2) with_die_analysis)
    = delete 2 (analysis_function with_die_analysis)
  ∧ (∀ k a,
       analysis (pruned (TheAnalysisFunction 2) with_die_analysis) !! k
       = Some a ↔
       analysis with_die_analysis !! k = Some a
       ∧ Analysis.analysis_function_pkey a ≠ 2)
  ∧ project (pruned (TheAnalysisFunction 2) with_die_analysis)
    = project with_die_analysis
  ∧ cell (pruned (TheAnalysisFunction 2) with_die_analysis)
    = cell with_die_analysis
  ∧ device (pruned (TheAnalysisFunction 2) with_die_analysis)
    = device with_die_analysis
  ∧ wafer (pruned (TheAnalysisFunction 2) with_die_analysis)
    = wafer with_die_analysis
  ∧ die (pruned (TheAnalysisFunction 2) with_die_analysis)
    = die with_die_analysis
  ∧ device_data (pruned (TheAnalysisFunction 2) with_die_analysis)
    = device_data with_die_analysis.
Proof.
  apply (delete_analysis_function_cascade with_die_analysis 2).
  vm_compute. by eexists.
Defined.

(** ** What a creation leaves alone *)

Lemma kept_refl s : kept s s.
Proof. split_and!; try done. apply retained_refl. Qed.

Lemma retained_insert_fresh (t : gmap Z Analysis.t) k r :
  t !! k = None → retained t (<[k:=r]> t).
Proof.
  intros Hk k' a Hk'. left. rewrite lookup_insert_ne; [done|congruence].
Qed.

(** Creating a row or recording a result never removes or changes a stored
    row of any table, whether the key is generated or supplied: every row
    stays under its key as it was, except that [record_result] may clear the
    [is_latest] flag of an analysis. *)
Theorem creation_keeps_rows fingerprint c s : kept s (exec fingerprint c s).
Proof.
  destruct c as [pk r|pk r|pk r|pk r|pk r|pk r|pk r|pk r|
                 function target parameters output sp now]; simpl.
  - unfold insert_project.
    destruct (place _ _ _ _ _ _) as [e|k] eqn:Ep; [apply kept_refl|].
    apply place_inr in Ep as (_ & Hk & _).
    split_and!; tables; try done; [by apply insert_subseteq|].
    apply retained_refl.
  - unfold insert_cell.
    destruct (place _ _ _ _ _ _) as [e|k] eqn:Ep; [apply kept_refl|].
    apply place_inr in Ep as (_ & Hk & _).
    split_and!; tables; try done; [by apply insert_subseteq|].
    apply retained_refl.
  - unfold insert_device.
    destruct (place _ _ _ _ _ _) as [e|k] eqn:Ep; [apply kept_refl|].
    apply place_inr in Ep as (_ & Hk & _).
    split_and!; tables; try done; [by apply insert_subseteq|].
    apply retained_refl.
  - unfold insert_wafer.
    destruct (place _ _ _ _ _ _) as [e|k] eqn:Ep; [apply kept_refl|].
    apply place_inr in Ep as (_ & Hk & _).
    split_and!; tables; try done; [by apply insert_subseteq|].
    apply retained_refl.
  - unfold insert_die.
    destruct (place _ _ _ _ _ _) as [e|k] eqn:Ep; [apply kept_refl|].
    apply place_inr in Ep as (_ & Hk & _).
    split_and!; tables; try done; [by apply insert_subseteq|].
    apply retained_refl.
  - unfold insert_device_data.
    destruct (place _ _ _ _ _ _) as [e|k] eqn:Ep; [apply kept_refl|].
    apply place_inr in Ep as (_ & Hk & _).
    split_and!; tables; try done; [by apply insert_subseteq|].
    apply retained_refl.
  - unfold insert_analysis_function.
    destruct (place _ _ _ _ _ _) as [e|k] eqn:Ep; [apply kept_refl|].
    apply place_inr in Ep as (_ & Hk & _).
    split_and!; tables; try done; [by apply insert_subseteq|].
    apply retained_refl.
  - unfold insert_analysis.
    destruct (place _ _ _ _ _ _) as [e|k] eqn:Ep; [apply kept_refl|].
    apply place_inr in Ep as (_ & Hk & _).
    split_and!; tables; try done. by apply retained_insert_fresh.
  - pose proof (record_result_retained fingerprint function target
                  parameters output sp now s) as Hr.
    destruct (record_result_tables fingerprint function target parameters
                output sp now s) as [t Ht].
    rewrite Ht in Hr |- *. by split_and!.
Qed.

(** ** The identity of an analysis *)

Lemma analysis_id_shape s a f :
  exactly_one_target a →
  (∀ k, k ∈ [Analysis.device_data_pkey a; Analysis.die_pkey a;
             Analysis.wafer_pkey a] → k ≠ Some 0) →
  analysis_function s !! Analysis.analysis_function_pkey a = Some f →
  (∃ k, columns_of a = (Some k, None, None)
        ∧ analysis_id s a
          = inr (AnalysisFunction.analysis_function_id f
                 +:+ " on Device Data #" +:+ pretty k))
  ∨ (∃ k, columns_of a = (None, Some k, None)
          ∧ analysis_id s a
            = inr (AnalysisFunction.analysis_function_id f
                   +:+ " on Die #" +:+ pretty k))
  ∨ (∃ k, columns_of a = (None, None, Some k)
          ∧ analysis_id s a
            = inr (AnalysisFunction.analysis_function_id f
                   +:+ " on Wafer #" +:+ pretty k)).
Proof.
  intros Hx Hnz Hf. unfold analysis_id, columns_of. rewrite Hf.
  assert (∀ k, Some k ∈ [Analysis.device_data_pkey a; Analysis.die_pkey a;
                          Analysis.wafer_pkey a] → (k =? 0) = false) as Hk.
  { intros k Hin. apply Z.eqb_neq. intros ->. by apply (Hnz _ Hin). }
  destruct Hx as [([k E1] & E2 & E3)|[(E1 & [k E2] & E3)|(E1 & E2 & [k E3])]];
    rewrite E1, E2, E3 in *; simpl;
    repeat (rewrite filter_cons; simpl; rewrite ?(Hk k) by set_solver; simpl).
  - left. by exists k.
  - right. left. by exists k.
  - right. right. by exists k.
Qed.

(** For the results of one stored function, [analysis_id] tells the targets
    apart: two rows, each with exactly one target column set to a key other
    than 0, that have the same [analysis_id] have the same target. *)
Theorem analysis_id_identifies_target s a b :
  exactly_one_target a → exactly_one_target b →
  (∀ k, k ∈ [Analysis.device_data_pkey a; Analysis.die_pkey a;
             Analysis.wafer_pkey a] → k ≠ Some 0) →
  (∀ k, k ∈ [Analysis.device_data_pkey b; Analysis.die_pkey b;
             Analysis.wafer_pkey b] → k ≠ Some 0) →
  Analysis.analysis_function_pkey a = Analysis.analysis_function_pkey b →
  is_Some (analysis_function s !! Analysis.analysis_function_pkey a) →
  analysis_id s a = analysis_id s b →
  columns_of a = columns_of b.
Proof.
  intros Ha Hb Hza Hzb Hfn [f Hf] Hid.
  assert (analysis_function s !! Analysis.analysis_function_pkey b = Some f)
    as Hf' by congruence.
  destruct (analysis_id_shape s a f Ha Hza Hf)
    as [(k & -> & Ea)|[(k & -> & Ea)|(k & -> & Ea)]];
    destruct (analysis_id_shape s b f Hb Hzb Hf')
      as [(k' & -> & Eb)|[(k' & -> & Eb)|(k' & -> & Eb)]];
    rewrite Ea, Eb in Hid; injection Hid as Hid;
    apply String.app_inj in Hid; simpl in Hid;
    try discriminate Hid;
    injection Hid as Hid; apply pretty_Z_inj in Hid; by subst.
Qed.

Lemma analysis_id_identifies_target_witness :
  columns_of (analysis_on (Some 1) None None 1)
  = columns_of
      (new_analysis 1 (OnDeviceData 1) (temp 25) empty_dict "plot.png" "25"
         10).
Proof.
  apply (analysis_id_identifies_target demo).
  - left. split_and!; [by eexists|done|done].
  - left. split_and!; [by eexists|done|done].
  - intros k Hk ->. simpl in Hk.
    repeat (apply elem_of_cons in Hk as [Hk|Hk]; [discriminate Hk|]).
    by apply elem_of_nil in Hk.
  - intros k Hk ->. simpl in Hk.
    repeat (apply elem_of_cons in Hk as [Hk|Hk]; [discriminate Hk|]).
    by apply elem_of_nil in Hk.
  - reflexivity.
  - vm_compute. by eexists.
  - vm_compute. reflexivity.
Defined.

(** ** When a creation is accepted *)

Lemma unique_device_cell_references_true d :
  Device.unique_device_cell_references d = true ↔
  ∀ p, Device.parent_cell_pkey d = Some p → p ≠ Device.cell_pkey d.
Proof.
  unfold Device.unique_device_cell_references.
  destruct (Device.parent_cell_pkey d) as [p|]; simpl.
  - rewrite negb_true_iff, Z.eqb_neq. split; [by intros ? ? [= <-]|eauto].
  - split; [done|]. by intros _.
Qed.

Lemma unique_device_ids_per_cell_false r d :
  Device.unique_device_ids_per_cell r d = false ↔
  ¬ (Device.cell_pkey r = Device.cell_pkey d
     ∧ Device.device_id r = Device.device_id d).
Proof.
  unfold Device.unique_device_ids_per_cell.
  rewrite andb_false_iff, Z.eqb_neq, bool_decide_eq_false. split.
  - intros [H|H] [? ?]; by apply H.
  - intros H.
    destruct (decide (Device.cell_pkey r = Device.cell_pkey d));
      [right|left]; [|done]. intros ?. by apply H.
Qed.

(** A device is created, with a generated key, exactly when: its parent
    cell, if any, is not its owning cell; its parent cell and placement
    columns are all null or all non-null; no stored device of the same cell
    has its [device_id]; and, when it has a parent cell, no stored device
    has its six placement columns.  Whether the cells it names are stored
    plays no part: the engine does not look. *)
Theorem create_device_accepted_iff s d :
  (∃ k s', insert_device None d s = (inr k, s')) ↔
  (∀ p, Device.parent_cell_pkey d = Some p → p ≠ Device.cell_pkey d)
  ∧ ((Device.parent_cell_pkey d = None ∧ Device.x d = None
      ∧ Device.y d = None ∧ Device.angle d = None ∧ Device.mirror d = None)
     ∨ (is_Some (Device.parent_cell_pkey d) ∧ is_Some (Device.x d)
        ∧ is_Some (Device.y d) ∧ is_Some (Device.angle d)
        ∧ is_Some (Device.mirror d)))
  ∧ (∀ k r, device s !! k = Some r →
            ¬ (Device.cell_pkey r = Device.cell_pkey d
               ∧ Device.device_id r = Device.device_id d))
  ∧ (∀ k r, device s !! k = Some r →
            is_Some (Device.parent_cell_pkey d) → ¬ same_placement r d).
Proof.
  split.
  - intros (k & s' & E). unfold insert_device in E.
    destruct (place _ _ _ _ _ _) as [e|k'] eqn:Ep; [discriminate E|].
    apply place_inr in Ep as (_ & _ & Hc & Hu & _).
    assert (Device.parent_cell_coordinate_reference_not_null d = true)
      as Hall.
    { apply (Hc "parent_cell_coordinate_reference_not_null").
      right. by left. }
    apply placement_check in Hall.
    split_and!.
    + apply unique_device_cell_references_true.
      apply (Hc "unique_device_cell_references"). by left.
    + done.
    + intros j r Hj. apply unique_device_ids_per_cell_false.
      assert (collides Device.unique_device_ids_per_cell (device s) d
              = false) as Hcol
        by (apply (Hu "unique_device_ids_per_cell"); right; by left).
      rewrite collides_false in Hcol. eauto.
    + intros j r Hj Hp Hsame.
      assert (collides Device.unique_coord_cells_on_device (device s) d
              = false) as Hcol
        by (apply (Hu "unique_coord_cells_on_device"); by left).
      rewrite collides_false in Hcol.
      pose proof (Hcol j r Hj) as Hno.
      apply not_true_iff_false in Hno. apply Hno.
      apply unique_coord_cells_on_device_true.
      destruct Hall as [(Hn & _)|(_ & Hx & Hy & Ha & Hm)].
      { rewrite Hn in Hp. by destruct Hp. }
      by split_and!.
  - intros (H1 & H2 & H3 & H4).
    exists (fresh_pkey (device s)). eexists. unfold insert_device.
    rewrite foreign_keys_not_enforced.
    rewrite place_accepts; [reflexivity| | |].
    + intros n c Hin. unfold Device.checks in Hin.
      apply elem_of_cons in Hin as [[= -> ->]|Hin];
        [by apply unique_device_cell_references_true|].
      apply elem_of_cons in Hin as [[= -> ->]|Hin];
        [by apply placement_check|by apply elem_of_nil in Hin].
    + apply fresh_pkey_fresh.
    + intros n dup Hin. unfold Device.uniques in Hin. apply collides_false.
      intros k r Hk.
      apply elem_of_cons in Hin as [[= -> ->]|Hin].
      { apply not_true_iff_false.
        intros (Hsame & Hp & _)%unique_coord_cells_on_device_true.
        by apply (H4 k r Hk Hp). }
      apply elem_of_cons in Hin as [[= -> ->]|Hin];
        [|by apply elem_of_nil in Hin].
      apply unique_device_ids_per_cell_false. eauto.
Qed.

Lemma create_device_accepted_iff_witness :
  ∃ k s', insert_device None (loose "a") empty_store = (inr k, s').
Proof.
  apply (create_device_accepted_iff empty_store (loose "a")).
  split_and!.
  - intros p Hp. discriminate Hp.
  - left. by split_and!.
  - intros k r Hk. simpl in Hk. by rewrite lookup_empty in Hk.
  - intros k r Hk. simpl in Hk. by rewrite lookup_empty in Hk.
Defined.

(** An analysis row is created, with a generated key, exactly when exactly
    one of its three target columns is set.  Whether the rows it names, its
    target and its analysis function, are stored plays no part: the engine
    does not look. *)
Theorem create_analysis_accepted_iff s a :
  (∃ k s', insert_analysis None a s = (inr k, s')) ↔ exactly_one_target a.
Proof.
  split.
  - intros (k & s' & E). unfold insert_analysis in E.
    destruct (place _ _ _ _ _ _) as [e|k'] eqn:Ep; [discriminate E|].
    apply place_inr in Ep as (_ & _ & Hc & _).
    apply xor_exactly_one.
    apply (Hc "analysis_pkeys_xor_constraint"). by left.
  - intros H0.
    exists (fresh_pkey (analysis s)). eexists. unfold insert_analysis.
    rewrite foreign_keys_not_enforced.
    rewrite place_accepts; [reflexivity| | |].
    + intros n c Hin. unfold Analysis.checks in Hin.
      apply elem_of_cons in Hin as [[= -> ->]|Hin];
        [by apply xor_exactly_one|by apply elem_of_nil in Hin].
    + apply fresh_pkey_fresh.
    + intros n dup Hin. by apply elem_of_nil in Hin.
Qed.

Lemma create_analysis_accepted_iff_witness :
  ∃ k s',
    insert_analysis None (analysis_on None None (Some 7) 9) empty_store
    = (inr k, s').
Proof.
  apply (create_analysis_accepted_iff empty_store
           (analysis_on None None (Some 7) 9)).
  right. right. split_and!; [done|done|by eexists].
Defined.

(** A device without a parent cell is never a duplicate for the placement
    index, of any device and in either order: its null columns compare
    equal to nothing. *)
Theorem unplaced_device_never_duplicate d r :
  Device.parent_cell_pkey d = None →
  Device.unique_coord_cells_on_device r d = false
  ∧ Device.unique_coord_cells_on_device d r = false.
Proof.
  intros Hp. unfold Device.unique_coord_cells_on_device. rewrite Hp.
  split.
  - destruct (Sql.eq Qeq_bool (Device.x r) (Device.x d)) as [[]|],
      (Sql.eq Qeq_bool (Device.y r) (Device.y d)) as [[]|],
      (Sql.eq Qeq_bool (Device.angle r) (Device.angle d)) as [[]|],
      (Sql.eq Bool.eqb (Device.mirror r) (Device.mirror d)) as [[]|],
      (Device.parent_cell_pkey r); reflexivity.
  - destruct (Sql.eq Qeq_bool (Device.x d) (Device.x r)) as [[]|],
      (Sql.eq Qeq_bool (Device.y d) (Device.y r)) as [[]|],
      (Sql.eq Qeq_bool (Device.angle d) (Device.angle r)) as [[]|],
      (Sql.eq Bool.eqb (Device.mirror d) (Device.mirror r)) as [[]|];
      reflexivity.
Qed.

Lemma unplaced_device_never_duplicate_witness :
  Device.unique_coord_cells_on_device (loose "a") (loose "b") = false
  ∧ Device.unique_coord_cells_on_device (loose "b") (loose "a") = false.
Proof. by apply (unplaced_device_never_duplicate (loose "b") (loose "a")). Defined.

(** ** Deleting a die *)

Lemma refers_singleton ref k : refers ref {[k]} = true ↔ ref = Some k.
Proof.
  rewrite refers_true. setoid_rewrite elem_of_singleton. split.
  - by intros (j & -> & ->).
  - intros ->. by exists k.
Qed.

(** Deleting a stored die always goes through.  It removes the die, exactly
    the measurements taken on it (also when the device they belong to
    stays) and exactly the analyses of the die or of one of those
    measurements; projects, cells, devices, wafers and analysis functions
    are as they were. *)
Theorem delete_die_cascade s k :
  is_Some (die s !! k) →
  session_delete (TheDie k) s = (inr tt, pruned (TheDie k) s)
  ∧ die (pruned (TheDie k) s) = delete k (die s)
  ∧ (∀ j r, device_data (pruned (TheDie k) s) !! j = Some r ↔
            device_data s !! j = Some r ∧ DeviceData.die_pkey r ≠ Some k)
  ∧ (∀ j a, analysis (pruned (TheDie k) s) !! j = Some a ↔
            analysis s !! j = Some a
            ∧ Analysis.die_pkey a ≠ Some k
            ∧ ∀ i r, Analysis.device_data_pkey a = Some i →
                     device_data s !! i = Some r →
                     DeviceData.die_pkey r ≠ Some k)
  ∧ project (pruned (TheDie k) s) = project s
  ∧ cell (pruned (TheDie k) s) = cell s
  ∧ device (pruned (TheDie k) s) = device s
  ∧ wafer (pruned (TheDie k) s) = wafer s
  ∧ analysis_function (pruned (TheDie k) s) = analysis_function s.
Proof.
  intros Hk.
  assert (gone_cell (TheDie k) s = ∅) as Hc.
  { unfold gone_cell. rewrite union_empty_l_L. apply selected_false.
    intros r. apply bool_decide_eq_false_2, not_elem_of_empty. }
  assert (gone_wafer (TheDie k) s = ∅) as Hw.
  { unfold gone_wafer. rewrite union_empty_l_L. apply selected_false.
    intros r. apply bool_decide_eq_false_2, not_elem_of_empty. }
  assert (gone_device (TheDie k) s = ∅) as Hd.
  { unfold gone_device. rewrite union_empty_l_L, Hc. apply selected_false.
    intros r. apply bool_decide_eq_false_2, not_elem_of_empty. }
  assert (gone_die (TheDie k) s = {[k]}) as Hdi.
  { unfold gone_die. rewrite Hw, selected_false; [apply union_empty_r_L|].
    intros r. apply bool_decide_eq_false_2, not_elem_of_empty. }
  assert (∀ j, j ∈ gone_device_data (TheDie k) s ↔
               ∃ r, device_data s !! j = Some r
                    ∧ DeviceData.die_pkey r = Some k) as Hdd.
  { intros j. unfold gone_device_data.
    rewrite union_empty_l_L, Hd, Hdi, elem_of_selected.
    setoid_rewrite refers_empty. simpl.
    by setoid_rewrite refers_singleton. }
  split_and!; tables; rewrite ?Hc, ?Hw, ?Hd, ?Hdi;
    try apply without_empty.
  - apply session_delete_stored. by apply bool_decide_eq_true_2.
  - apply without_singleton.
  - intros j r. rewrite lookup_without, Hdd.
    split; intros [Hj Hn]; (split; [done|]).
    + intros Hr. apply Hn. eauto.
    + intros (r' & Hj' & Hr). assert (r' = r) as -> by congruence. done.
  - intros j a. rewrite lookup_without. unfold gone_analysis.
    rewrite union_empty_l_L, Hdi, Hw, elem_of_selected.
    setoid_rewrite refers_empty.
    split.
    + intros [Hj Hn]. split_and!; [done| |].
      * intros Ha. apply Hn. exists a. split; [done|].
        apply (refers_singleton _ k) in Ha. rewrite Ha.
        by rewrite orb_true_r.
      * intros i r Hi Hr Hrk. apply Hn. exists a. split; [done|].
        assert (refers (Analysis.device_data_pkey a)
                  (gone_device_data (TheDie k) s) = true) as ->; [|done].
        apply refers_true. exists i. split; [done|]. apply Hdd. eauto.
    + intros (Hj & Hn1 & Hn2). split; [done|].
      intros (a' & Hj' & Hp). assert (a' = a) as -> by congruence.
      rewrite !orb_false_r in Hp. apply orb_true_iff in Hp as [Hp|Hp].
      * apply refers_true in Hp as (i & Hi & (r & Hr & Hrk)%Hdd).
        by eapply Hn2.
      * by apply refers_singleton in Hp.
Qed.

Lemma delete_die_cascade_witness :
  session_delete (TheDie 0) with_die_analysis
  = (inr tt, pruned (TheDie 0) with_die_analysis)
  ∧ die (pruned (TheDie 0) with_die_analysis)
    = delete 0 (die with_die_analysis)
  ∧ (∀ j r, device_data (pruned (TheDie 0) with_die_analysis) !! j = Some r ↔
            device_data with_die_analysis !! j = Some r
            ∧ DeviceData.die_pkey r ≠ Some 0)
  ∧ (∀ j a, analysis (pruned (TheDie 0) with_die_analysis) !! j = Some a ↔
            analysis with_die_analysis !! j = Some a
            ∧ Analysis.die_pkey a ≠ Some 0
            ∧ ∀ i r, Analysis.device_data_pkey a = Some i →
                     device_data with_die_analysis !! i = Some r →
                     DeviceData.die_pkey r ≠ Some 0)
  ∧ project (pruned (TheDie 0) with_die_analysis) = project with_die_analysis
  ∧ cell (pruned (TheDie 0) with_die_analysis) = cell with_die_analysis
  ∧ device (pruned (TheDie 0) with_die_analysis) = device with_die_analysis
  ∧ wafer (pruned (TheDie 0) with_die_analysis) = wafer with_die_analysis
  ∧ analysis_function (pruned (TheDie 0) with_die_analysis)
    = analysis_function with_die_analysis.
Proof.
  apply (delete_die_cascade with_die_analysis 0).
  vm_compute. by eexists.
Defined.
